(** * domainchecks/models.py: the uptime-check data model and its queries

    A shallow embedding of [DomainCheck], [CheckResult] and the custom
    [DomainCheckQuerySet] ([active], [stale], [status]).

    The querysets of the source are declarative: Django turns them into one
    SELECT over [domaincheck LEFT OUTER JOIN checkresult], grouped by check.
    The embedding evaluates that query over an explicit [Database] value:
    - SQL NULL is [None]; conditions are three-valued ([tri]);
    - timestamps and durations are integers (microseconds), and the clock
      read [now()] is an explicit argument;
    - REAL arithmetic is exact rational arithmetic;
    - strings are UTF-8 text, and lengths are counted in characters;
    - the source guards no division and validates no field, so what a
      division by zero does and which declared constraints are enforced is
      the database's choice: the model takes the [backend] as a parameter;
    - the rows of a query are listed in the order the checks are stored in;
      the source asks for no order. *)

From Stdlib Require Import ZArith QArith List String Ascii Bool Lia.
From Stdlib Require Import Floats.PrimFloat.
Import ListNotations.

Local Open Scope Z_scope.

(** ** Outcomes and backends *)

(** A database operation returns a value or raises. *)
Inductive outcome (A : Type) : Type :=
| Ok (a : A)
| DataError
| IntegrityError
| OverflowError.
Arguments Ok {A} a.
Arguments DataError {A}.
Arguments IntegrityError {A}.
Arguments OverflowError {A}.

Definition bind {A B : Type} (m : outcome A) (k : A -> outcome B) : outcome B :=
  match m with
  | Ok a => k a
  | DataError => DataError
  | IntegrityError => IntegrityError
  | OverflowError => OverflowError
  end.

(** The rows of a query, or the first error met computing them. *)
Fixpoint collect {A : Type} (rows : list (outcome A)) : outcome (list A) :=
  match rows with
  | [] => Ok []
  | row :: rest => bind row (fun a => bind (collect rest) (fun l => Ok (a :: l)))
  end.

(** The two databases the project runs on. *)
Inductive backend : Type := SQLite | PostgreSQL.

(** SQLite evaluates [x / 0] to NULL; PostgreSQL raises. *)
Definition division_by_zero_raises (b : backend) : bool :=
  match b with SQLite => false | PostgreSQL => true end.

(** ** SQL values, lookups and aggregates *)

Module Sql.

(** A condition is TRUE, FALSE or UNKNOWN ([None]). *)
Definition tri := option bool.

Definition tri_and (a b : tri) : tri :=
  match a, b with
  | Some false, _ | _, Some false => Some false
  | Some true, Some true => Some true
  | _, _ => None
  end.

Definition tri_or (a b : tri) : tri :=
  match a, b with
  | Some true, _ | _, Some true => Some true
  | Some false, Some false => Some false
  | _, _ => None
  end.

(** A row is kept, or a WHEN arm taken, only on TRUE. *)
Definition holds (c : tri) : bool :=
  match c with Some true => true | _ => false end.

(** Ordered column types: what [__gt], [__gte], [__lt], [__range] need. *)
Class Ordered (A : Type) := { leb : A -> A -> bool; ltb : A -> A -> bool }.

#[export] Instance Ordered_Z : Ordered Z := {| leb := Z.leb; ltb := Z.ltb |}.
#[export] Instance Ordered_Q : Ordered Q :=
  {| leb := Qle_bool; ltb := fun x y => negb (Qle_bool y x) |}.

Section Lookups.
Context {A : Type} `{Ordered A}.

Definition gt (col : option A) (v : A) : tri := option_map (fun x => ltb v x) col.
Definition gte (col : option A) (v : A) : tri := option_map (fun x => leb v x) col.
Definition lt (col : option A) (v : A) : tri := option_map (fun x => ltb x v) col.
Definition lte (col : option A) (v : A) : tri := option_map (fun x => leb x v) col.

(** [col__range=(lo, hi)] is [col BETWEEN lo AND hi]. *)
Definition range (col : option A) (bounds : A * A) : tri :=
  tri_and (gte col (fst bounds)) (lte col (snd bounds)).
End Lookups.

Definition isnull {A : Type} (col : option A) (v : bool) : tri :=
  Some (match col with None => v | Some _ => negb v end).

(** [Q(k1=v1, k2=v2, ...)]: the conjunction of its lookups. *)
Definition Q_ (lookups : list tri) : tri := fold_right tri_and (Some true) lookups.

(** [Case(When(c1, then=v1), ...)] without a default: the value of the first
    arm whose condition is TRUE, NULL when there is none. *)
Definition When {V : Type} (c : tri) (v : V) : tri * V := (c, v).

Fixpoint Case {V : Type} (arms : list (tri * V)) : option V :=
  match arms with
  | [] => None
  | (c, v) :: rest => if holds c then Some v else Case rest
  end.

(** [COUNT(e)] counts the rows where [e] is not NULL. *)
Fixpoint Count {V : Type} (col : list (option V)) : Z :=
  match col with
  | [] => 0
  | None :: rest => Count rest
  | Some _ :: rest => 1 + Count rest
  end.

(** [MAX(e)] skips NULLs and is NULL when nothing is left. *)
Fixpoint Max (col : list (option Z)) : option Z :=
  match col with
  | [] => None
  | None :: rest => Max rest
  | Some x :: rest =>
      match Max rest with
      | None => Some x
      | Some m => Some (Z.max x m)
      end
  end.

(** [num / den] on REAL operands.  The source does not guard the divisor:
    on zero the result is NULL or an error, as the backend has it. *)
Definition div (b : backend) (num den : Q) : outcome (option Q) :=
  if Qeq_bool den 0 then
    if division_by_zero_raises b then DataError else Ok None
  else Ok (Some (num / den)%Q).

End Sql.

Import Sql.

(** ** str.format *)

Module Format.

(** The fragment of [str.format] the model uses: literal text and named
    replacement fields [{name}], filled from keyword arguments.  A field
    with no matching keyword is a [KeyError], an unclosed or stray brace a
    [ValueError]; both are [None]. *)

Local Open Scope string_scope.
Local Open Scope char_scope.

Definition kwargs := list (string * string).

Fixpoint lookup (name : string) (kw : kwargs) : option string :=
  match kw with
  | [] => None
  | (k, v) :: rest => if String.eqb k name then Some v else lookup name rest
  end.

(** [scan template cur kw]: one pass over the template.  [cur] is [None]
    in literal text and [Some name] inside a replacement field whose name
    read so far is [name]. *)
Fixpoint scan (template : string) (cur : option string) (kw : kwargs)
  : option string :=
  match template, cur with
  | EmptyString, None => Some EmptyString
  | EmptyString, Some _ => None
  | String c rest, None =>
      if Ascii.eqb c "{" then scan rest (Some EmptyString) kw
      else if Ascii.eqb c "}" then None
      else option_map (String c) (scan rest None kw)
  | String c rest, Some name =>
      if Ascii.eqb c "}" then
        match lookup name kw, scan rest None kw with
        | Some v, Some out => Some (v ++ out)
        | _, _ => None
        end
      else if Ascii.eqb c "{" then None
      else scan rest (Some (name ++ String c EmptyString)) kw
  end.

Definition format (template : string) (kw : kwargs) : option string :=
  scan template None kw.

End Format.

(** ** Time *)

(** [datetime] values are microseconds since the epoch, [timedelta] values a
    number of microseconds. *)
Definition datetime := Z.
Definition timedelta := Z.

Definition hours (n : Z) : timedelta := n * 3600 * 1000000.

(** ** Text *)

(** A string holds UTF-8 text.  A byte [10xxxxxx] continues the character
    before it; every other byte starts one. *)
Definition continuation (a : ascii) : bool :=
  match a with Ascii _ _ _ _ _ _ b6 b7 => b7 && negb b6 end.

(** The number of characters, what [max_length] and [varchar(n)] count. *)
Fixpoint characters (s : string) : nat :=
  match s with
  | EmptyString => O
  | String a rest => if continuation a then characters rest else S (characters rest)
  end.

(** ** The models *)

(** [class DomainCheck(models.Model)]: a configured website check. *)
Module DomainCheck.

Local Open Scope string_scope.

Definition PROTOCOL_HTTP := "http".
Definition PROTOCOL_HTTPS := "https".
Definition PROTOCOL_CHOICES := [(PROTOCOL_HTTP, "HTTP"); (PROTOCOL_HTTPS, "HTTPS")].

Definition METHOD_GET := "get".
Definition METHOD_POST := "post".
Definition METHOD_CHOICES := [(METHOD_GET, "GET"); (METHOD_POST, "POST")].

(** The declared field options. *)
Definition domain_max_length : nat := 253.
Definition path_max_length : nat := 1024.
Definition protocol_max_length : nat := 5.
Definition method_max_length : nat := 4.
Definition protocol_default := PROTOCOL_HTTP.
Definition method_default := METHOD_GET.
Definition is_active_default := true.

(** A stored row; [pk] is the automatic primary key. *)
Record t := {
  pk : Z;
  domain : string;
  path : string;
  protocol : string;
  method : string;
  is_active : bool
}.

(** The [url] property. *)
Definition url (self : t) : option string :=
  Format.format "{protocol}://{domain}{path}"
    [("protocol", protocol self); ("domain", domain self); ("path", path self)].

(** [get_method_display()]: the label [METHOD_CHOICES] gives the stored
    method, or the stored value itself when the choices do not list it. *)
Fixpoint display (choices : list (string * string)) (value : string) : string :=
  match choices with
  | [] => value
  | (v, label) :: rest => if String.eqb v value then label else display rest value
  end.

Definition get_method_display (self : t) : string := display METHOD_CHOICES (method self).

(** [__str__] *)
Definition __str__ (self : t) : option string :=
  match url self with
  | Some u => Format.format "{method} {url}" [("method", get_method_display self); ("url", u)]
  | None => None
  end.

(** Keyword arguments of the constructor; [None] is a field left out. *)
Record args := {
  arg_domain : option string;
  arg_path : option string;
  arg_protocol : option string;
  arg_method : option string;
  arg_is_active : option bool
}.

Definition or_default {A : Type} (supplied : option A) (default : A) : A :=
  match supplied with Some v => v | None => default end.

(** The instance built from the arguments: a field left out takes its
    declared default, and a [CharField] without one the empty string. *)
Definition init (key : Z) (kw : args) : t :=
  {| pk := key;
     domain := or_default (arg_domain kw) "";
     path := or_default (arg_path kw) "";
     protocol := or_default (arg_protocol kw) protocol_default;
     method := or_default (arg_method kw) method_default;
     is_active := or_default (arg_is_active kw) is_active_default |}.

(** The declared lengths, as the columns [varchar(max_length)] of a table
    hold them.  The source never tests them itself. *)
Definition columns_ok (c : t) : bool :=
  (characters (domain c) <=? domain_max_length)%nat
  && (characters (path c) <=? path_max_length)%nat
  && (characters (protocol c) <=? protocol_max_length)%nat
  && (characters (method c) <=? method_max_length)%nat.

End DomainCheck.

(** [class CheckResult(models.Model)]: the result of one check. *)
Module CheckResult.

Local Open Scope string_scope.

Definition response_body_default := "".

(** A stored row.  [checked_on] is NOT NULL; [status_code] and
    [response_time] are declared [null=True]. *)
Record t := {
  pk : Z;
  domain_check_id : Z;
  checked_on : datetime;
  status_code : option Z;
  response_time : option float;
  response_body : string
}.

(** Keyword arguments of the constructor; [None] is a field left out, or
    given as [None]. *)
Record args := {
  arg_domain_check : option Z;
  arg_checked_on : option datetime;
  arg_status_code : option Z;
  arg_response_time : option float;
  arg_response_body : option string
}.

(** The row an instance is stored as, if its NOT NULL columns are set. *)
Definition init (key : Z) (kw : args) : option t :=
  match arg_domain_check kw, arg_checked_on kw with
  | Some fk, Some t0 =>
      Some {| pk := key;
              domain_check_id := fk;
              checked_on := t0;
              status_code := arg_status_code kw;
              response_time := arg_response_time kw;
              response_body :=
                DomainCheck.or_default (arg_response_body kw) response_body_default |}
  | _, _ => None
  end.

(** The integers a column can take: 32 bits on PostgreSQL, 64 on SQLite. *)
Definition integer_fits (b : backend) (v : option Z) : bool :=
  match v, b with
  | None, _ => true
  | Some n, PostgreSQL => ((-2147483648 <=? n) && (n <=? 2147483647))%Z
  | Some n, SQLite => ((-9223372036854775808 <=? n) && (n <=? 9223372036854775807))%Z
  end.

(** [PositiveIntegerField]: the column is declared with [CHECK (status_code >= 0)]. *)
Definition positive_integer_ok (v : option Z) : bool :=
  match v with
  | None => true
  | Some n => (0 <=? n)%Z
  end.

End CheckResult.

(** ** The database and the ORM *)

Record Database := {
  domainchecks : list DomainCheck.t;
  checkresults : list CheckResult.t;
  domaincheck_seq : Z;
  checkresult_seq : Z
}.

Definition empty_db : Database :=
  {| domainchecks := []; checkresults := []; domaincheck_seq := 1; checkresult_seq := 1 |}.

(** An operation of the ORM returns or raises, and leaves a database. *)
Definition ORM (A : Type) : Type := Database -> outcome A * Database.

(** PostgreSQL holds a row to the types and constraints of its columns
    ([varchar(n)], [CHECK], the foreign key); SQLite, as the project's Django
    drives it, to NOT NULL alone. *)
Definition checks_columns (b : backend) : bool :=
  match b with SQLite => false | PostgreSQL => true end.

(** [DomainCheck.objects.create] with keyword arguments [kw] *)
Definition create_domaincheck (b : backend) (kw : DomainCheck.args) : ORM DomainCheck.t :=
  fun db =>
    let c := DomainCheck.init (domaincheck_seq db) kw in
    if checks_columns b && negb (DomainCheck.columns_ok c) then (DataError, db)
    else
      (Ok c, {| domainchecks := domainchecks db ++ [c];
                checkresults := checkresults db;
                domaincheck_seq := domaincheck_seq db + 1;
                checkresult_seq := checkresult_seq db |}).

(** [CheckResult.objects.create] with keyword arguments [kw] *)
Definition create_checkresult (b : backend) (kw : CheckResult.args) : ORM CheckResult.t :=
  fun db =>
    if negb (CheckResult.integer_fits b (CheckResult.arg_status_code kw)) then
      (match b with SQLite => OverflowError | PostgreSQL => DataError end, db)
    else
      match CheckResult.init (checkresult_seq db) kw with
      | None => (IntegrityError, db)
      | Some r =>
          if checks_columns b
             && negb (CheckResult.positive_integer_ok (CheckResult.status_code r)
                      && existsb (fun c => DomainCheck.pk c =? CheckResult.domain_check_id r)
                                 (domainchecks db))
          then (IntegrityError, db)
          else
            (Ok r, {| domainchecks := domainchecks db;
                      checkresults := checkresults db ++ [r];
                      domaincheck_seq := domaincheck_seq db;
                      checkresult_seq := checkresult_seq db + 1 |})
      end.

(** A queryset is a query: it denotes rows once run against a database. *)
Definition QuerySet (A : Type) : Type := Database -> list A.

(** Running a queryset is a SELECT. *)
Definition fetch {A : Type} (qs : QuerySet A) : ORM (list A) :=
  fun db => (Ok (qs db), db).

(** The databases the two constructors can build on a backend. *)
Inductive reachable (b : backend) : Database -> Prop :=
| reach_empty : reachable b empty_db
| reach_domaincheck db kw :
    reachable b db -> reachable b (snd (create_domaincheck b kw db))
| reach_checkresult db kw :
    reachable b db -> reachable b (snd (create_checkresult b kw db)).

(** ** DomainCheckQuerySet *)

Module StaleRow.
Record t := { check : DomainCheck.t; last_check : option datetime }.
End StaleRow.

Module StatusRow.
Record t := {
  check : DomainCheck.t;
  last_check : option datetime;
  successes : Z;
  pings : Z;
  success_rate : option Z;
  status : option string
}.
End StatusRow.

Module DomainCheckQuerySet.

Local Open Scope string_scope.

(** [DomainCheck.objects] *)
Definition objects : QuerySet DomainCheck.t := domainchecks.

(** The reverse relation [checkresult]: the rows of
    [domaincheck LEFT OUTER JOIN checkresult] for one check; a check
    without results keeps one row whose result columns are all NULL. *)
Definition checkresult (db : Database) (c : DomainCheck.t) : list (option CheckResult.t) :=
  match filter (fun r => (CheckResult.domain_check_id r =? DomainCheck.pk c)%Z)
               (checkresults db) with
  | [] => [None]
  | rs => map Some rs
  end.

Definition checkresult__checked_on (j : option CheckResult.t) : option datetime :=
  option_map CheckResult.checked_on j.

Definition checkresult__status_code (j : option CheckResult.t) : option Z :=
  match j with Some r => CheckResult.status_code r | None => None end.

Definition active (self : QuerySet DomainCheck.t) : QuerySet DomainCheck.t :=
  fun db => filter DomainCheck.is_active (self db).

Definition default_cutoff : timedelta := hours 1.

Definition stale (now : datetime) (cutoff : option timedelta)
           (self : QuerySet DomainCheck.t) : QuerySet StaleRow.t :=
  fun db =>
    let cutoff := DomainCheck.or_default cutoff default_cutoff in
    let end_time := now - cutoff in
    filter
      (fun row =>
         holds (tri_or (Q_ [lt (StaleRow.last_check row) end_time])
                       (Q_ [isnull (StaleRow.last_check row) true])))
      (map
         (fun c =>
            {| StaleRow.check := c;
               StaleRow.last_check := Max (map checkresult__checked_on (checkresult db c)) |})
         (self db)).

(** [int(x)]: the integer part of [x], rounding towards zero. *)
Definition int (x : Q) : Z := Z.quot (Qnum x) (Zpos (Qden x)).

(** The query computes [success_rate] as a REAL and classifies that value.
    The value a row carries is read back through the output field of the
    annotation, which is the integer field of its operand [F('successes')]
    (no [output_field] is given): it is converted with [int].  A division by
    zero raised by the backend fails the whole query. *)
Definition status (b : backend) (now : datetime) (cutoff : option timedelta)
           (self : QuerySet DomainCheck.t) : Database -> outcome (list StatusRow.t) :=
  fun db =>
    let cutoff := DomainCheck.or_default cutoff default_cutoff in
    let start_time := now - cutoff in
    let ping j := Q_ [gte (checkresult__checked_on j) start_time] in
    let success j :=
      Q_ [gte (checkresult__checked_on j) start_time;
          range (checkresult__status_code j) (200, 299)] in
    collect
      (map
         (fun c =>
            let joined := checkresult db c in
            let last_check := Max (map checkresult__checked_on joined) in
            let successes := Count (map (fun j => Case [When (success j) 1]) joined) in
            let pings := Count (map (fun j => Case [When (ping j) 1]) joined) in
            bind (Sql.div b (inject_Z successes * 100)%Q (inject_Z pings))
              (fun success_rate =>
                 let status :=
                   Case [When (Q_ [gt success_rate (inject_Z 90)]) "good";
                         When (Q_ [range success_rate (inject_Z 75, inject_Z 90)]) "fair";
                         When (Q_ [lt success_rate (inject_Z 75)]) "poor";
                         When (Q_ [isnull success_rate true]) "unknown"] in
                 Ok {| StatusRow.check := c;
                       StatusRow.last_check := last_check;
                       StatusRow.successes := successes;
                       StatusRow.pings := pings;
                       StatusRow.success_rate := option_map int success_rate;
                       StatusRow.status := status |}))
         (self db)).

End DomainCheckQuerySet.

Import DomainCheckQuerySet.

(** ** Vocabulary of the statements *)

(** The stored results of a check. *)
Definition results_of (db : Database) (c : DomainCheck.t) : list CheckResult.t :=
  filter (fun r => CheckResult.domain_check_id r =? DomainCheck.pk c) (checkresults db).

(** A result checked at or after [start]. *)
Definition since (start : datetime) (r : CheckResult.t) : bool :=
  start <=? CheckResult.checked_on r.


(** A result with a status code from 200 to 299. *)
Definition succeeded (r : CheckResult.t) : bool :=
  match CheckResult.status_code r with
  | Some code => (200 <=? code) && (code <=? 299)
  | None => false
  end.

Definition count {A : Type} (p : A -> bool) (l : list A) : Z :=
  Z.of_nat (List.length (filter p l)).

(** [m] is the latest [checked_on] among the results [rs]. *)
Definition latest (rs : list CheckResult.t) (m : datetime) : Prop :=
  (exists r, In r rs /\ CheckResult.checked_on r = m)
  /\ (forall r, In r rs -> CheckResult.checked_on r <= m).

(** The classification the thresholds give a success rate: the test for
    good is made first, then the one for fair. *)
Definition classify (rate : Q) : string :=
  if negb (Qle_bool rate (inject_Z 90)) then "good"
  else if Qle_bool (inject_Z 75) rate && Qle_bool rate (inject_Z 90) then "fair"
  else "poor".

(** The success rate the query computes from the two counts. *)
Definition exact_rate (successes pings : Z) : Q :=
  (inject_Z successes * 100 / inject_Z pings)%Q.

(** The scoring window of a call. *)
Definition window (cutoff : option timedelta) : timedelta :=
  DomainCheck.or_default cutoff (hours 1).

(** The arguments of a check created with its domain and path only. *)
Definition only_domain_and_path (d p : string) : DomainCheck.args :=
  {| DomainCheck.arg_domain := Some d;
     DomainCheck.arg_path := Some p;
     DomainCheck.arg_protocol := None;
     DomainCheck.arg_method := None;
     DomainCheck.arg_is_active := None |}.

(** The arguments of a failed probe: a time, and nothing else. *)
Definition failed_probe (fk : Z) (t : datetime) : CheckResult.args :=
  {| CheckResult.arg_domain_check := Some fk;
     CheckResult.arg_checked_on := Some t;
     CheckResult.arg_status_code := None;
     CheckResult.arg_response_time := None;
     CheckResult.arg_response_body := None |}.

(** What the declarations of [DomainCheck] bound, in characters. *)
Definition declared_check (c : DomainCheck.t) : Prop :=
  (characters (DomainCheck.domain c) <= 253)%nat
  /\ (characters (DomainCheck.path c) <= 1024)%nat.

(** What the declarations of [CheckResult] bound: a status code, when there
    is one, is not negative. *)
Definition declared_result (r : CheckResult.t) : Prop :=
  forall code, CheckResult.status_code r = Some code -> 0 <= code.

(** Every result of the check is earlier than [end_time] (so also when it
    has none). *)
Definition all_before (end_time : datetime) (db : Database) (c : DomainCheck.t) : bool :=
  forallb (fun r => CheckResult.checked_on r <? end_time) (results_of db c).

(** The four labels of the classification. *)
Definition labels : list string := ["good"; "fair"; "poor"; "unknown"]%string.

(** [n] times the character [a]. *)
Fixpoint replicate (n : nat) (a : ascii) : string :=
  match n with
  | O => EmptyString
  | S n' => String a (replicate n' a)
  end.

(** ** Example data *)

Module Examples.

Local Open Scope string_scope.

Definition check1 : DomainCheck.t :=
  {| DomainCheck.pk := 1;
     DomainCheck.domain := "example.com";
     DomainCheck.path := "/health";
     DomainCheck.protocol := "https";
     DomainCheck.method := "get";
     DomainCheck.is_active := true |}.

(** A result of [check1]: checked at [t], with status code [code]. *)
Definition result (key : Z) (t : datetime) (code : option Z) : CheckResult.t :=
  {| CheckResult.pk := key;
     CheckResult.domain_check_id := 1;
     CheckResult.checked_on := t;
     CheckResult.status_code := code;
     CheckResult.response_time := None;
     CheckResult.response_body := "" |}.

Definition store (rs : list CheckResult.t) : Database :=
  {| domainchecks := [check1];
     checkresults := rs;
     domaincheck_seq := 2;
     checkresult_seq := 1 + Z.of_nat (List.length rs) |}.

(** The time of the call: ten hours after the epoch. *)
Definition noon : datetime := hours 10.

(** Ten probes in the last ten minutes, the fifth a timeout. *)
Definition minute (n : Z) : datetime := noon - n * 60000000.

Definition nine_of_ten : Database :=
  store (map (fun n => result n (minute (10 - n)) (if n =? 5 then None else Some 200)%Z)
             [1; 2; 3; 4; 5; 6; 7; 8; 9; 10]%Z).

Definition nine_of_ten_row : StatusRow.t :=
  {| StatusRow.check := check1;
     StatusRow.last_check := Some noon;
     StatusRow.successes := 9;
     StatusRow.pings := 10;
     StatusRow.success_rate := Some 90;
     StatusRow.status := Some "fair" |}.

(** No result was ever recorded. *)
Definition never_checked : Database := store [].

Definition never_checked_row : StatusRow.t :=
  {| StatusRow.check := check1;
     StatusRow.last_check := None;
     StatusRow.successes := 0;
     StatusRow.pings := 0;
     StatusRow.success_rate := None;
     StatusRow.status := Some "unknown" |}.



(** One result, five hours before the call. *)
Definition long_ago : Database := store [result 1 (hours 5) (Some 200)].

Definition long_ago_row : StatusRow.t :=
  {| StatusRow.check := check1;
     StatusRow.last_check := Some (hours 5);
     StatusRow.successes := 0;
     StatusRow.pings := 0;
     StatusRow.success_rate := None;
     StatusRow.status := Some "unknown" |}.

Definition long_ago_stale : StaleRow.t :=
  {| StaleRow.check := check1; StaleRow.last_check := Some (hours 5) |}.





(** A database built by the constructors: one check, one failed probe. *)
Definition built (b : backend) : Database :=
  snd (create_checkresult b (failed_probe 1 noon)
         (snd (create_domaincheck b (only_domain_and_path "example.com" "/health")
                 empty_db))).

(** A domain of 254 characters. *)
Definition long_domain : string := replicate 254 "a".

(** A probe with the status code -1. *)
Definition negative_probe : CheckResult.args :=
  {| CheckResult.arg_domain_check := Some 1;
     CheckResult.arg_checked_on := Some noon;
     CheckResult.arg_status_code := Some (-1);
     CheckResult.arg_response_time := None;
     CheckResult.arg_response_body := None |}.

(** What the constructors leave, given the long domain and the negative code. *)
Definition undeclared (b : backend) : Database :=
  snd (create_checkresult b negative_probe
         (snd (create_domaincheck b (only_domain_and_path long_domain "/") empty_db))).

End Examples.

(** ** The aggregates *)

Section Aggregates.

Lemma Count_nonneg {V : Type} (col : list (option V)) : 0 <= Count col.
Proof.
  induction col as [|[v|] col IH]; cbn [Count]; lia.
Qed.

(** Counting a conditional expression counts the rows its condition keeps. *)
Lemma Count_Case {J : Type} (cond : J -> tri) (rows : list J) :
  Count (map (fun j => Case [When (cond j) 1]) rows)
  = count (fun j => holds (cond j)) rows.
Proof.
  unfold count.
  change (Count (map (fun j => if holds (cond j) then Some 1 else None) rows)
          = Z.of_nat (List.length (filter (fun j => holds (cond j)) rows))).
  induction rows as [|j rows IH]; [reflexivity|].
  cbn [map filter].
  destruct (holds (cond j)); cbn [Count List.length]; rewrite IH; lia.
Qed.

Lemma count_map {A B : Type} (f : A -> B) (p : B -> bool) (l : list A) :
  count p (map f l) = count (fun a => p (f a)) l.
Proof.
  unfold count.
  induction l as [|a l IH]; simpl; [reflexivity|].
  destruct (p (f a)); simpl; lia.
Qed.

Lemma count_ext {A : Type} (p q : A -> bool) (l : list A) :
  (forall a, In a l -> p a = q a) -> count p l = count q l.
Proof.
  unfold count.
  induction l as [|a l IH]; intros E; simpl; [reflexivity|].
  rewrite (E a (or_introl eq_refl)).
  assert (IH' := IH (fun b Hb => E b (or_intror Hb))).
  destruct (q a); simpl; lia.
Qed.

Lemma count_nonneg {A : Type} (p : A -> bool) (l : list A) : 0 <= count p l.
Proof. unfold count; lia. Qed.

Lemma count_le {A : Type} (p q : A -> bool) (l : list A) :
  (forall a, p a = true -> q a = true) -> count p l <= count q l.
Proof.
  unfold count; intros Hpq.
  induction l as [|a l IH]; simpl; [lia|].
  destruct (p a) eqn:Hp.
  - rewrite (Hpq a Hp); simpl; lia.
  - destruct (q a); simpl; lia.
Qed.

Lemma count_pos {A : Type} (p : A -> bool) (l : list A) :
  0 < count p l <-> exists a, In a l /\ p a = true.
Proof.
  unfold count; split.
  - destruct (filter p l) as [|a l'] eqn:E; simpl; [lia|].
    intros _. exists a. apply filter_In. rewrite E. now left.
  - intros [a Ha]. apply filter_In in Ha.
    destruct (filter p l); [destruct Ha | simpl; lia].
Qed.

Lemma count_zero {A : Type} (p : A -> bool) (l : list A) :
  count p l = 0 <-> forall a, In a l -> p a = false.
Proof.
  split.
  - intros E a Ha. destruct (p a) eqn:Hp; [|reflexivity].
    assert (0 < count p l) by (apply count_pos; eauto). lia.
  - intros H. destruct (Z.eq_dec (count p l) 0) as [|N]; [assumption|].
    assert (P : 0 < count p l) by (pose proof (count_nonneg p l); lia).
    apply count_pos in P. destruct P as [a [Ha Hp]].
    rewrite (H a Ha) in Hp. discriminate.
Qed.

(** What [MAX] returns over the non-NULL values of a column. *)
Lemma Max_Some (col : list (option Z)) (m : Z) :
  Max col = Some m <->
  In (Some m) col /\ (forall x, In (Some x) col -> x <= m).
Proof.
  revert m. induction col as [|[x|] col IH]; intros m; simpl.
  - split; [discriminate | intros [[] _]].
  - destruct (Max col) as [m'|] eqn:E.
    + specialize (IH m'). destruct IH as [IH _]. destruct (IH eq_refl) as [Hin Hle].
      split.
      * intros H. injection H as <-. split.
        -- destruct (Z.max_spec x m') as [[_ ->]|[_ ->]]; auto.
        -- intros y [Hy|Hy]; [injection Hy as <-; lia | specialize (Hle y Hy); lia].
      * intros [Hm Hub]. f_equal.
        assert (x <= m) by (apply Hub; now left).
        assert (m' <= m) by (apply Hub; now right).
        destruct Hm as [Hm|Hm]; [injection Hm as <-; lia|].
        specialize (Hle m Hm). lia.
    + assert (Hnone : forall y, ~ In (Some y) col).
      { intros y Hy.
        assert (A : exists z, Max col = Some z).
        { clear - Hy. induction col as [|[z|] col IHc]; simpl in *.
          - destruct Hy.
          - destruct (Max col); eauto.
          - destruct Hy as [Hy|Hy]; [discriminate | auto]. }
        destruct A as [z Hz]. congruence. }
      split.
      * intros H. injection H as <-. split; [now left|].
        intros y [Hy|Hy]; [injection Hy as <-; lia | destruct (Hnone y Hy)].
      * intros [[Hm|Hm] _]; [congruence | destruct (Hnone m Hm)].
  - rewrite IH. split.
    + intros [Hin Hle]. split; [now right|].
      intros y [Hy|Hy]; [discriminate | auto].
    + intros [[Hm|Hm] Hle]; [discriminate|]. split; [assumption|].
      intros y Hy. apply Hle. now right.
Qed.

Lemma Max_None (col : list (option Z)) :
  Max col = None <-> forall x, ~ In (Some x) col.
Proof.
  split.
  - intros E x Hx.
    induction col as [|[z|] col IH]; simpl in *.
    + destruct Hx.
    + destruct (Max col); discriminate.
    + destruct Hx as [Hx|Hx]; [discriminate | auto].
  - intros H. destruct (Max col) as [m|] eqn:E; [|reflexivity].
    apply Max_Some in E. destruct E as [Hin _]. destruct (H m Hin).
Qed.

End Aggregates.

(** ** The join and the annotations of a row *)

Section Rows.

Variable db : Database.
Variable c : DomainCheck.t.

Lemma checkresult_Some (r : CheckResult.t) :
  In (Some r) (checkresult db c) <-> In r (results_of db c).
Proof.
  unfold checkresult. fold (results_of db c).
  destruct (results_of db c) as [|r0 rs].
  - simpl. split; [intros [H|[]]; discriminate | intros []].
  - rewrite in_map_iff. split.
    + intros [x [E Hx]]. now injection E as <-.
    + intros Hr. now exists r.
Qed.

(** A condition that is not TRUE on the all-NULL row counts results. *)
Lemma count_checkresult (cond : option CheckResult.t -> tri) :
  holds (cond None) = false ->
  count (fun j => holds (cond j)) (checkresult db c)
  = count (fun r => holds (cond (Some r))) (results_of db c).
Proof.
  intros Hnull. unfold checkresult. fold (results_of db c).
  destruct (results_of db c) as [|r0 rs].
  - unfold count. simpl. now rewrite Hnull.
  - now rewrite count_map.
Qed.

Lemma last_check_Some (m : datetime) :
  Max (map checkresult__checked_on (checkresult db c)) = Some m
  <-> latest (results_of db c) m.
Proof.
  rewrite Max_Some. unfold latest. split.
  - intros [Hin Hle]. split.
    + apply in_map_iff in Hin. destruct Hin as [[r|] [E Hj]]; [|discriminate].
      injection E as E. exists r. split; [now apply checkresult_Some | assumption].
    + intros r Hr. apply Hle. apply in_map_iff.
      exists (Some r). split; [reflexivity | now apply checkresult_Some].
  - intros [[r [Hr E]] Hle]. split.
    + apply in_map_iff. exists (Some r). split; [simpl; now f_equal|].
      now apply checkresult_Some.
    + intros x Hx. apply in_map_iff in Hx. destruct Hx as [[r'|] [E' Hj]]; [|discriminate].
      injection E' as <-. apply Hle. now apply checkresult_Some.
Qed.

Lemma last_check_None :
  Max (map checkresult__checked_on (checkresult db c)) = None
  <-> results_of db c = [].
Proof.
  rewrite Max_None. split.
  - intros H. destruct (results_of db c) as [|r rs] eqn:E; [reflexivity|].
    exfalso. apply (H (CheckResult.checked_on r)). apply in_map_iff.
    exists (Some r). split; [reflexivity|]. apply checkresult_Some. rewrite E. now left.
  - intros E x Hx. apply in_map_iff in Hx. destruct Hx as [[r|] [E' Hj]]; [|discriminate].
    apply checkresult_Some in Hj. rewrite E in Hj. destruct Hj.
Qed.

End Rows.

Lemma results_of_In (db : Database) (c : DomainCheck.t) (r : CheckResult.t) :
  In r (results_of db c)
  <-> In r (checkresults db) /\ CheckResult.domain_check_id r = DomainCheck.pk c.
Proof.
  unfold results_of. rewrite filter_In, Z.eqb_eq. reflexivity.
Qed.

Lemma holds_Some (b : bool) : holds (Some b) = b.
Proof. now destruct b. Qed.

Lemma holds_Q1 (x : tri) : holds (Q_ [x]) = holds x.
Proof. destruct x as [[|]|]; reflexivity. Qed.

Lemma holds_Q2 (x y : tri) : holds (Q_ [x; y]) = holds x && holds y.
Proof. destruct x as [[|]|], y as [[|]|]; reflexivity. Qed.

(** The classification arm of [status], on a rate that is not NULL and on
    one that is. *)
Lemma Case_rate (rate : Q) :
  Case [When (Q_ [gt (Some rate) (inject_Z 90)]) "good"%string;
        When (Q_ [range (Some rate) (inject_Z 75, inject_Z 90)]) "fair"%string;
        When (Q_ [lt (Some rate) (inject_Z 75)]) "poor"%string;
        When (Q_ [isnull (Some rate) true]) "unknown"%string]
  = Some (classify rate).
Proof.
  unfold classify, When. cbn [Case]. rewrite !holds_Q1.
  unfold gt, range, lt, gte, lte. cbn [option_map fst snd tri_and holds ltb leb Ordered_Q].
  destruct (Qle_bool rate (inject_Z 90)) eqn:E90; cbn [negb andb].
  - destruct (Qle_bool (inject_Z 75) rate) eqn:E75; cbn [negb andb]; reflexivity.
  - reflexivity.
Qed.

Lemma Case_null :
  Case [When (Q_ [gt (@None Q) (inject_Z 90)]) "good"%string;
        When (Q_ [range (@None Q) (inject_Z 75, inject_Z 90)]) "fair"%string;
        When (Q_ [lt (@None Q) (inject_Z 75)]) "poor"%string;
        When (Q_ [isnull (@None Q) true]) "unknown"%string]
  = Some "unknown"%string.
Proof. reflexivity. Qed.

(** The two counts of [status], read on the results of the check. *)
Lemma Count_pings db c start :
  Count (map (fun j => Case [When (Q_ [gte (checkresult__checked_on j) start]) 1])
             (checkresult db c))
  = count (since start) (results_of db c).
Proof.
  rewrite Count_Case, count_checkresult by reflexivity.
  apply count_ext. intros r _. rewrite holds_Q1. apply holds_Some.
Qed.

Lemma Count_successes db c start :
  Count (map (fun j => Case [When (Q_ [gte (checkresult__checked_on j) start;
                                       range (checkresult__status_code j) (200, 299)]) 1])
             (checkresult db c))
  = count (fun r => since start r && succeeded r) (results_of db c).
Proof.
  rewrite Count_Case, count_checkresult by reflexivity.
  apply count_ext. intros r _. rewrite holds_Q2. unfold since, succeeded.
  cbn [checkresult__checked_on checkresult__status_code option_map gte].
  rewrite holds_Some. f_equal.
  destruct (CheckResult.status_code r) as [code|]; [|reflexivity].
  unfold range, gte, lte. cbn [option_map fst snd leb Ordered_Z].
  destruct (200 <=? code), (code <=? 299); reflexivity.
Qed.

(** ** Collecting rows *)

Lemma collect_Ok {A B : Type} (f : A -> outcome B) (l : list A) (rows : list B) :
  collect (map f l) = Ok rows ->
  (forall row, In row rows -> exists a, In a l /\ f a = Ok row)
  /\ (forall a, In a l -> exists row, In row rows /\ f a = Ok row).
Proof.
  revert rows. induction l as [|a l IH]; intros rows; cbn [map collect].
  - intros E. injection E as <-. split; [intros row [] | intros a []].
  - destruct (f a) as [x| | |] eqn:Ea; cbn [bind]; try discriminate.
    destruct (collect (map f l)) as [xs| | |]; cbn [bind]; try discriminate.
    intros E. injection E as <-. destruct (IH xs eq_refl) as [IH1 IH2]. split.
    + intros row [<-|Hrow].
      * exists a. split; [now left | exact Ea].
      * destruct (IH1 row Hrow) as [a' [Ha' E']]. exists a'. split; [now right | exact E'].
    + intros a' [<-|Ha'].
      * exists x. split; [now left | exact Ea].
      * destruct (IH2 a' Ha') as [row [Hrow E']]. exists row. split; [now right | exact E'].
Qed.

Lemma collect_total {A B : Type} (f : A -> outcome B) (l : list A) :
  (forall a, In a l -> exists row, f a = Ok row) ->
  exists rows, collect (map f l) = Ok rows.
Proof.
  induction l as [|a l IH]; intros H; cbn [map collect]; [now exists []|].
  destruct (H a (or_introl eq_refl)) as [x Ex]. rewrite Ex. cbn [bind].
  destruct (IH (fun a' Ha' => H a' (or_intror Ha'))) as [xs Exs]. rewrite Exs. cbn [bind].
  now exists (x :: xs).
Qed.

Lemma collect_DataError {A B : Type} (f : A -> outcome B) (l : list A) :
  (forall a, In a l -> (exists row, f a = Ok row) \/ f a = DataError) ->
  collect (map f l) = DataError <-> exists a, In a l /\ f a = DataError.
Proof.
  induction l as [|a l IH]; intros H; cbn [map collect].
  - split; [discriminate | intros [a [[] _]]].
  - specialize (IH (fun a' Ha' => H a' (or_intror Ha'))).
    destruct (H a (or_introl eq_refl)) as [[x Ex]|Ex]; rewrite Ex; cbn [bind].
    + destruct (collect (map f l)) as [xs| | |] eqn:E; cbn [bind].
      * split; [discriminate|]. intros [a' [[<-|Ha'] E']]; [congruence|].
        assert (D : @Ok (list B) xs = DataError) by (apply IH; now exists a').
        discriminate.
      * split; [|reflexivity]. intros _. destruct IH as [IH _].
        destruct (IH eq_refl) as [a' [Ha' E']]. exists a'. split; [now right | exact E'].
      * split; [discriminate|]. intros [a' [[<-|Ha'] E']]; [congruence|].
        assert (D : @IntegrityError (list B) = DataError) by (apply IH; now exists a').
        discriminate.
      * split; [discriminate|]. intros [a' [[<-|Ha'] E']]; [congruence|].
        assert (D : @OverflowError (list B) = DataError) by (apply IH; now exists a').
        discriminate.
    + split; [|reflexivity]. intros _. exists a. split; [now left | exact Ex].
Qed.

(** ** Arithmetic of the success rate *)

Lemma inject_Z_zero (p : Z) : Qeq_bool (inject_Z p) 0 = true <-> p = 0.
Proof.
  rewrite Qeq_bool_iff. unfold Qeq. simpl. lia.
Qed.

Lemma rate_bounds (s p : Z) :
  0 <= s <= p -> 0 < p ->
  (0 <= inject_Z s * 100 / inject_Z p /\ inject_Z s * 100 / inject_Z p <= 100)%Q.
Proof.
  intros [Hs Hsp] Hp.
  assert (Hp' : (0 < inject_Z p)%Q) by (change (inject_Z 0 < inject_Z p)%Q; rewrite <- Zlt_Qlt; exact Hp).
  split.
  - apply Qle_shift_div_l; [exact Hp'|].
    rewrite Qmult_0_l.
    change (inject_Z 0 <= inject_Z s * inject_Z 100)%Q.
    rewrite <- inject_Z_mult, <- Zle_Qle. lia.
  - apply Qle_shift_div_r; [exact Hp'|].
    change (inject_Z s * inject_Z 100 <= inject_Z 100 * inject_Z p)%Q.
    rewrite <- !inject_Z_mult, <- Zle_Qle. lia.
Qed.

(** The integer part of the rate is the quotient of the two integers. *)
Lemma int_exact_rate (s p : Z) :
  0 <= s -> 0 < p -> int (exact_rate s p) = 100 * s / p.
Proof.
  intros Hs Hp. destruct p as [|pp|pp]; try lia.
  unfold int, exact_rate, Qdiv, Qmult, Qinv, inject_Z.
  cbn [Qnum Qden]. rewrite Z.quot_div_nonneg by lia.
  f_equal; lia.
Qed.

(** ** The rows of [status] *)

(** The annotations of every row [status] returns, in terms of the stored
    results of the row's check. *)
Lemma status_row b now cutoff (self : QuerySet DomainCheck.t) db rows row :
  status b now cutoff self db = Ok rows ->
  In row rows ->
  let rs := results_of db (StatusRow.check row) in
  let start := now - window cutoff in
  In (StatusRow.check row) (self db)
  /\ StatusRow.pings row = count (since start) rs
  /\ StatusRow.successes row = count (fun r => since start r && succeeded r) rs
  /\ StatusRow.last_check row
     = Max (map checkresult__checked_on (checkresult db (StatusRow.check row)))
  /\ (StatusRow.pings row = 0 ->
      division_by_zero_raises b = false
      /\ StatusRow.success_rate row = None
      /\ StatusRow.status row = Some "unknown"%string)
  /\ (StatusRow.pings row <> 0 ->
      StatusRow.success_rate row
      = Some (int (exact_rate (StatusRow.successes row) (StatusRow.pings row)))
      /\ StatusRow.status row
         = Some (classify (exact_rate (StatusRow.successes row) (StatusRow.pings row)))).
Proof.
  intros E Hin. unfold status in E. apply collect_Ok in E. destruct E as [E _].
  destruct (E row Hin) as [c [Hc Hrow]]. clear E. cbv beta zeta in Hrow.
  change (DomainCheck.or_default cutoff default_cutoff) with (window cutoff) in Hrow.
  rewrite Count_pings, Count_successes in Hrow.
  unfold Sql.div in Hrow.
  destruct (Qeq_bool (inject_Z (count (since (now - window cutoff)) (results_of db c))) 0)
    eqn:E0.
  - destruct (division_by_zero_raises b) eqn:Eb; cbn [bind] in Hrow; [discriminate|].
    injection Hrow as <-. cbn [StatusRow.check StatusRow.pings StatusRow.successes
      StatusRow.last_check StatusRow.success_rate StatusRow.status option_map].
    apply inject_Z_zero in E0.
    split; [exact Hc|]. do 3 (split; [reflexivity|]). split.
    + intros _. split; [reflexivity|]. split; reflexivity.
    + intros NZ. contradiction.
  - cbn [bind] in Hrow. injection Hrow as <-.
    cbn [StatusRow.check StatusRow.pings StatusRow.successes
      StatusRow.last_check StatusRow.success_rate StatusRow.status option_map].
    assert (NZ : count (since (now - window cutoff)) (results_of db c) <> 0).
    { intros Z0. apply inject_Z_zero in Z0. congruence. }
    split; [exact Hc|]. do 3 (split; [reflexivity|]). split.
    + intros Z0. contradiction.
    + intros _. split; [reflexivity | apply Case_rate].
Qed.

(** What every row says about its own counts and rate. *)
Lemma status_row_rate b now cutoff (self : QuerySet DomainCheck.t) db rows row :
  status b now cutoff self db = Ok rows ->
  In row rows ->
  0 <= StatusRow.successes row <= StatusRow.pings row
  /\ (StatusRow.pings row = 0 -> StatusRow.success_rate row = None)
  /\ (StatusRow.pings row <> 0 ->
      StatusRow.success_rate row
      = Some (100 * StatusRow.successes row / StatusRow.pings row)).
Proof.
  intros E Hin. destruct (status_row _ _ _ _ _ _ _ E Hin) as (_ & Hp & Hs & _ & H0 & H1).
  assert (Hle : 0 <= StatusRow.successes row <= StatusRow.pings row).
  { rewrite Hp, Hs. split; [apply count_nonneg|].
    apply count_le. intros r Hr. now apply andb_true_iff in Hr. }
  split; [exact Hle|]. split.
  - intros Z0. now apply H0.
  - intros NZ. destruct (H1 NZ) as [Hr _]. rewrite Hr, int_exact_rate by lia. reflexivity.
Qed.

(** A query that returns has a row for each check of the queryset. *)
Lemma status_row_of b now cutoff (self : QuerySet DomainCheck.t) db rows c :
  status b now cutoff self db = Ok rows ->
  In c (self db) ->
  exists row, In row rows /\ StatusRow.check row = c.
Proof.
  intros E Hc. unfold status in E. apply collect_Ok in E. destruct E as [_ E].
  destruct (E c Hc) as [row [Hrow Hf]]. exists row. split; [exact Hrow|].
  cbv beta zeta in Hf.
  destruct (Sql.div b _ _) as [rate| | |]; cbn [bind] in Hf; try discriminate.
  injection Hf as <-. reflexivity.
Qed.

(** On SQLite the query always returns. *)
Lemma status_SQLite now cutoff (self : QuerySet DomainCheck.t) db :
  exists rows, status SQLite now cutoff self db = Ok rows.
Proof.
  unfold status. apply collect_total. intros c _. cbv beta zeta.
  unfold Sql.div. destruct (Qeq_bool _ 0); cbn [division_by_zero_raises bind]; eauto.
Qed.

(** On PostgreSQL it raises exactly when a check of the queryset has no
    result in the window. *)
Lemma status_PostgreSQL now cutoff (self : QuerySet DomainCheck.t) db :
  (status PostgreSQL now cutoff self db = DataError
   <-> exists c, In c (self db)
                 /\ count (since (now - window cutoff)) (results_of db c) = 0)
  /\ ((forall c, In c (self db) ->
                 count (since (now - window cutoff)) (results_of db c) <> 0) ->
      exists rows, status PostgreSQL now cutoff self db = Ok rows).
Proof.
  unfold status.
  change (DomainCheck.or_default cutoff default_cutoff) with (window cutoff).
  cbv zeta. split.
  - rewrite collect_DataError.
    + split; intros [c [Hc H]]; exists c; (split; [exact Hc|]).
      * cbv beta in H. rewrite Count_pings in H. unfold Sql.div in H.
        destruct (Qeq_bool _ 0) eqn:E0 in H; [now apply inject_Z_zero in E0|].
        cbn [bind] in H. discriminate.
      * cbv beta. rewrite Count_pings. unfold Sql.div.
        apply inject_Z_zero in H. rewrite H. reflexivity.
    + intros c _. cbv beta. unfold Sql.div.
      destruct (Qeq_bool _ 0); cbn [division_by_zero_raises bind]; eauto.
  - intros H. apply collect_total. intros c Hc. cbv beta.
    rewrite Count_pings. unfold Sql.div.
    destruct (Qeq_bool _ 0) eqn:E0; [|cbn [bind]; eauto].
    apply inject_Z_zero in E0. destruct (H c Hc E0).
Qed.

(** ** The thresholds *)

Lemma classify_good (rate : Q) : (inject_Z 90 < rate)%Q <-> classify rate = "good"%string.
Proof.
  unfold classify. destruct (Qle_bool rate (inject_Z 90)) eqn:E; cbn [negb].
  - apply Qle_bool_iff in E. split.
    + intros H. exfalso. exact (Qlt_not_le _ _ H E).
    + destruct (Qle_bool (inject_Z 75) rate && true); discriminate.
  - split; [reflexivity|]. intros _. apply Qnot_le_lt. intros H.
    apply Qle_bool_iff in H. congruence.
Qed.

Lemma classify_fair (rate : Q) :
  (inject_Z 75 <= rate /\ rate <= inject_Z 90)%Q <-> classify rate = "fair"%string.
Proof.
  unfold classify.
  destruct (Qle_bool rate (inject_Z 90)) eqn:E90, (Qle_bool (inject_Z 75) rate) eqn:E75;
    cbn [negb andb]; split; try reflexivity; try discriminate.
  - intros _. split; now apply Qle_bool_iff.
  - intros [H _]. apply Qle_bool_iff in H. congruence.
  - intros [_ H]. apply Qle_bool_iff in H. congruence.
  - intros [_ H]. apply Qle_bool_iff in H. congruence.
Qed.

Lemma classify_poor (rate : Q) : (rate < inject_Z 75)%Q <-> classify rate = "poor"%string.
Proof.
  unfold classify.
  destruct (Qle_bool rate (inject_Z 90)) eqn:E90, (Qle_bool (inject_Z 75) rate) eqn:E75;
    cbn [negb andb]; split; try reflexivity; try discriminate.
  - intros H. apply Qle_bool_iff in E75. exfalso. exact (Qlt_not_le _ _ H E75).
  - intros _. apply Qnot_le_lt. intros H. apply Qle_bool_iff in H. congruence.
  - intros H. exfalso.
    assert (H90 : (rate <= inject_Z 90)%Q).
    { apply Qlt_le_weak. eapply Qlt_trans; [exact H|]. reflexivity. }
    apply Qle_bool_iff in H90. congruence.
  - intros H. exfalso.
    assert (H90 : (rate <= inject_Z 90)%Q).
    { apply Qlt_le_weak. eapply Qlt_trans; [exact H|]. reflexivity. }
    apply Qle_bool_iff in H90. congruence.
Qed.

(** ** The claims *)







(** C3.  The division that defines [success_rate] is not guarded.  For a
    queryset with a check that has no result in the window, the query raises
    on PostgreSQL, where a division by zero is an error; on SQLite, where it
    is NULL, the check gets its row, with [pings] 0, a NULL rate and the
    classification unknown. *)
Theorem status_division_unguarded now cutoff (self : QuerySet DomainCheck.t) db c :
  In c (self db) ->
  (forall r, In r (checkresults db) ->
             CheckResult.domain_check_id r = DomainCheck.pk c ->
             CheckResult.checked_on r < now - window cutoff) ->
  status PostgreSQL now cutoff self db = DataError
  /\ exists rows,
       status SQLite now cutoff self db = Ok rows
       /\ (exists row, In row rows /\ StatusRow.check row = c)
       /\ (forall row,
             In row rows -> StatusRow.check row = c ->
             StatusRow.pings row = 0
             /\ StatusRow.success_rate row = None
             /\ StatusRow.status row = Some "unknown"%string).
Proof.
  intros Hc Hold.
  assert (Z0 : count (since (now - window cutoff)) (results_of db c) = 0).
  { apply count_zero. intros r Hr.
    apply results_of_In in Hr. destruct Hr as [Hr Hfk].
    specialize (Hold r Hr Hfk). unfold since. apply Z.leb_gt. exact Hold. }
  split.
  - apply status_PostgreSQL. now exists c.
  - destruct (status_SQLite now cutoff self db) as [rows E]. exists rows.
    split; [exact E|]. split; [exact (status_row_of _ _ _ _ _ _ _ E Hc)|].
    intros row Hin <-.
    destruct (status_row _ _ _ _ _ _ _ E Hin) as (_ & Hp & _ & _ & H0 & _).
    assert (P0 : StatusRow.pings row = 0) by (rewrite Hp; exact Z0).
    destruct (H0 P0) as (_ & Hr & Hs). auto.
Qed.

Lemma status_division_unguarded_witness :
  status PostgreSQL Examples.noon None objects Examples.never_checked = DataError
  /\ exists rows,
       status SQLite Examples.noon None objects Examples.never_checked = Ok rows
       /\ (exists row, In row rows /\ StatusRow.check row = Examples.check1)
       /\ (forall row,
             In row rows -> StatusRow.check row = Examples.check1 ->
             StatusRow.pings row = 0
             /\ StatusRow.success_rate row = None
             /\ StatusRow.status row = Some "unknown"%string).
Proof.
  apply (status_division_unguarded Examples.noon None objects Examples.never_checked
           Examples.check1).
  - left. reflexivity.
  - intros r Hr. destruct Hr.
Defined.

(** C5. In every row, [0 <= successes <= pings]; the success rate is NULL
    exactly when [pings] is 0, and lies between 0 and 100 otherwise, as the
    row carries it and as the query computes it. *)
Theorem success_rate_range b now cutoff (self : QuerySet DomainCheck.t) db rows row :
  status b now cutoff self db = Ok rows ->
  In row rows ->
  0 <= StatusRow.successes row <= StatusRow.pings row
  /\ (StatusRow.success_rate row = None <-> StatusRow.pings row = 0)
  /\ (0 < StatusRow.pings row ->
      exists rate, StatusRow.success_rate row = Some rate /\ 0 <= rate <= 100)
  /\ (forall rate, StatusRow.success_rate row = Some rate -> 0 <= rate <= 100)
  /\ (0 < StatusRow.pings row ->
      (0 <= exact_rate (StatusRow.successes row) (StatusRow.pings row)
       /\ exact_rate (StatusRow.successes row) (StatusRow.pings row) <= 100)%Q).
Proof.
  intros E Hin.
  destruct (status_row_rate _ _ _ _ _ _ _ E Hin) as (Hle & Hzero & Hrate).
  assert (Hbound : StatusRow.pings row <> 0 ->
                   0 <= 100 * StatusRow.successes row / StatusRow.pings row <= 100).
  { intros NZ. split.
    - apply Z.div_pos; lia.
    - apply Z.div_le_upper_bound; lia. }
  split; [exact Hle|]. split; [|split; [|split]].
  - split; [|exact Hzero].
    intros E0. destruct (Z.eq_dec (StatusRow.pings row) 0) as [|NZ]; [assumption|].
    rewrite (Hrate NZ) in E0. discriminate.
  - intros Hpos. assert (NZ : StatusRow.pings row <> 0) by lia.
    eexists. split; [exact (Hrate NZ) | exact (Hbound NZ)].
  - intros rate E0. destruct (Z.eq_dec (StatusRow.pings row) 0) as [Z0|NZ].
    + rewrite (Hzero Z0) in E0. discriminate.
    + rewrite (Hrate NZ) in E0. injection E0 as <-. exact (Hbound NZ).
  - intros Hpos. unfold exact_rate. apply rate_bounds; lia.
Qed.

Lemma success_rate_range_witness :
  0 <= StatusRow.successes Examples.nine_of_ten_row <= StatusRow.pings Examples.nine_of_ten_row
  /\ (StatusRow.success_rate Examples.never_checked_row = None
      <-> StatusRow.pings Examples.never_checked_row = 0).
Proof.
  destruct (success_rate_range SQLite Examples.noon None objects Examples.nine_of_ten
              [Examples.nine_of_ten_row] Examples.nine_of_ten_row eq_refl (or_introl eq_refl))
    as (H & _).
  destruct (success_rate_range SQLite Examples.noon None objects Examples.never_checked
              [Examples.never_checked_row] Examples.never_checked_row eq_refl
              (or_introl eq_refl)) as (_ & H' & _).
  split; [exact H | exact H'].
Defined.
(** ** Staleness *)

Lemma results_of_nil (db : Database) (c : DomainCheck.t) :
  results_of db c = []
  <-> forall r, In r (checkresults db) -> CheckResult.domain_check_id r <> DomainCheck.pk c.
Proof.
  split.
  - intros E r Hr Hfk.
    assert (H : In r (results_of db c)) by (apply results_of_In; now split).
    rewrite E in H. destruct H.
  - intros H. destruct (results_of db c) as [|r rs] eqn:E; [reflexivity|].
    assert (Hr : In r (results_of db c)) by (rewrite E; now left).
    apply results_of_In in Hr. destruct Hr as [Hr Hfk]. destruct (H r Hr Hfk).
Qed.

(** The filter of [stale], on a [last_check] that is NULL and on one that
    is not. *)
Lemma stale_filter (last : option datetime) (end_time : datetime) :
  holds (tri_or (Q_ [lt last end_time]) (Q_ [isnull last true])) = true
  <-> last = None \/ exists t, last = Some t /\ t < end_time.
Proof.
  destruct last as [t|].
  - cbn [lt option_map isnull negb Q_ fold_right ltb Ordered_Z].
    destruct (t <? end_time) eqn:E; cbn [tri_and tri_or holds].
    + apply Z.ltb_lt in E. split; [|reflexivity].
      intros _. right. now exists t.
    + apply Z.ltb_ge in E. split; [discriminate|].
      intros [H|[t' [H Hlt]]]; [discriminate|]. injection H as <-. lia.
  - cbn. split; [now left | reflexivity].
Qed.

Lemma stale_row now cutoff (self : QuerySet DomainCheck.t) db row :
  In row (stale now cutoff self db)
  <-> In (StaleRow.check row) (self db)
      /\ StaleRow.last_check row
         = Max (map checkresult__checked_on (checkresult db (StaleRow.check row)))
      /\ (StaleRow.last_check row = None
          \/ exists t, StaleRow.last_check row = Some t /\ t < now - window cutoff).
Proof.
  unfold stale.
  change (DomainCheck.or_default cutoff default_cutoff) with (window cutoff).
  rewrite filter_In, stale_filter, in_map_iff. split.
  - intros [[c [<- Hc]] H]. cbn [StaleRow.check StaleRow.last_check] in *. auto.
  - intros (Hc & Hl & H). split; [|exact H].
    exists (StaleRow.check row). split; [|exact Hc].
    destruct row as [c l]. cbn [StaleRow.check StaleRow.last_check] in *. now subst l.
Qed.

(** C4. [stale] reports a check exactly when no result exists for it (its
    [last_check] is then NULL) or its latest result is strictly earlier than
    [now] minus the cutoff; so a check without results is always reported.
    The cutoff left out is one hour. *)
Theorem stale_exactly now cutoff (self : QuerySet DomainCheck.t) db c :
  In c (self db) ->
  let none_recorded :=
    forall r, In r (checkresults db) -> CheckResult.domain_check_id r <> DomainCheck.pk c in
  ((exists row, In row (stale now cutoff self db) /\ StaleRow.check row = c)
   <-> none_recorded
       \/ exists m, latest (results_of db c) m /\ m < now - window cutoff)
  /\ (forall row, In row (stale now cutoff self db) -> StaleRow.check row = c ->
        (StaleRow.last_check row = None <-> none_recorded)
        /\ (forall m, StaleRow.last_check row = Some m
                      <-> latest (results_of db c) m /\ m < now - window cutoff))
  /\ (none_recorded ->
      In {| StaleRow.check := c; StaleRow.last_check := None |} (stale now cutoff self db))
  /\ stale now None self db = stale now (Some (3600 * 1000000)) self db.
Proof.
  intros Hc none_recorded. subst none_recorded.
  split; [|split; [|split]].
  - rewrite <- results_of_nil. split.
    + intros [row [Hrow <-]]. apply stale_row in Hrow.
      destruct Hrow as (_ & Hl & [Hn|[t [Ht Hlt]]]).
      * left. apply last_check_None. rewrite <- Hl. exact Hn.
      * right. exists t. split; [|exact Hlt]. apply last_check_Some.
        rewrite <- Hl. exact Ht.
    + intros H.
      exists {| StaleRow.check := c;
                StaleRow.last_check := Max (map checkresult__checked_on (checkresult db c)) |}.
      split; [|reflexivity]. apply stale_row. cbn [StaleRow.check StaleRow.last_check].
      split; [exact Hc|]. split; [reflexivity|].
      destruct H as [Hn|[m [Hm Hlt]]].
      * left. now apply last_check_None.
      * right. exists m. split; [now apply last_check_Some | exact Hlt].
  - intros row Hrow <-. apply stale_row in Hrow. destruct Hrow as (_ & Hl & Hold).
    split.
    + rewrite <- results_of_nil, <- last_check_None. rewrite Hl. reflexivity.
    + intros m. rewrite <- last_check_Some, <- Hl. split.
      * intros E. split; [exact E|].
        destruct Hold as [Hn|[t [Ht Hlt]]]; [rewrite E in Hn; discriminate|].
        rewrite E in Ht. injection Ht as <-. exact Hlt.
      * intros [E _]. exact E.
  - rewrite <- results_of_nil.
    intros Hn. apply stale_row. cbn [StaleRow.check StaleRow.last_check].
    split; [exact Hc|]. split; [|now left].
    symmetry. now apply last_check_None.
  - reflexivity.
Qed.

Lemma stale_exactly_witness :
  In {| StaleRow.check := Examples.check1; StaleRow.last_check := None |}
     (stale Examples.noon None objects Examples.never_checked).
Proof.
  apply (stale_exactly Examples.noon None objects Examples.never_checked Examples.check1).
  - left. reflexivity.
  - intros r Hr. destruct Hr.
Defined.

(** C9. In [status] and in [stale] alike, [last_check] is the latest
    [checked_on] among all the results of the check, whatever the window or
    the cutoff, and NULL only when the check has no result: a check whose
    only result is older than the window has [pings = 0] and a [last_check]. *)
Theorem last_check_over_all_results now cutoff (self : QuerySet DomainCheck.t) db :
  (forall b rows row,
     status b now cutoff self db = Ok rows -> In row rows ->
     (forall m, StatusRow.last_check row = Some m
                <-> latest (results_of db (StatusRow.check row)) m)
     /\ (StatusRow.last_check row = None <-> results_of db (StatusRow.check row) = []))
  /\ (forall row, In row (stale now cutoff self db) ->
     (forall m, StaleRow.last_check row = Some m
                <-> latest (results_of db (StaleRow.check row)) m)
     /\ (StaleRow.last_check row = None <-> results_of db (StaleRow.check row) = []))
  /\ (status SQLite Examples.noon None objects Examples.long_ago = Ok [Examples.long_ago_row]
      /\ StatusRow.pings Examples.long_ago_row = 0
      /\ StatusRow.last_check Examples.long_ago_row = Some (hours 5))
  /\ In Examples.long_ago_stale (stale Examples.noon None objects Examples.long_ago).
Proof.
  split; [|split; [|split]].
  - intros b rows row E Hin.
    destruct (status_row _ _ _ _ _ _ _ E Hin) as (_ & _ & _ & Hl & _).
    rewrite Hl. split; [intros m; apply last_check_Some | apply last_check_None].
  - intros row Hin. apply stale_row in Hin. destruct Hin as (_ & Hl & _).
    rewrite Hl. split; [intros m; apply last_check_Some | apply last_check_None].
  - split; [reflexivity | split; reflexivity].
  - left. reflexivity.
Qed.

(** ** The target URL *)

Lemma append_empty (s : string) : (s ++ "")%string = s.
Proof.
  induction s as [|a s IH]; simpl; [reflexivity | now rewrite IH].
Qed.

Lemma length_append (s t : string) :
  String.length (s ++ t) = (String.length s + String.length t)%nat.
Proof.
  induction s as [|a s IH]; simpl; [reflexivity | now rewrite IH].
Qed.

(** C6. The URL of a check is its protocol, then [://], then its domain,
    then its path: nothing else is put in and no character is changed. *)
Theorem url_is_concatenation (c : DomainCheck.t) :
  DomainCheck.url c
  = Some (DomainCheck.protocol c ++ "://" ++ DomainCheck.domain c ++ DomainCheck.path c)%string
  /\ (forall u, DomainCheck.url c = Some u ->
        String.length u
        = (String.length (DomainCheck.protocol c) + 3
           + String.length (DomainCheck.domain c)
           + String.length (DomainCheck.path c))%nat).
Proof.
  assert (E : DomainCheck.url c
    = Some (DomainCheck.protocol c ++ "://" ++ DomainCheck.domain c ++ DomainCheck.path c)%string).
  { unfold DomainCheck.url, Format.format. cbn. now rewrite append_empty. }
  split; [exact E|].
  intros u Hu. rewrite E in Hu. injection Hu as <-.
  rewrite length_append. simpl. rewrite length_append. lia.
Qed.

(** ** Listing the active checks *)

(** C7. Listing the active checks returns the stored checks whose
    [is_active] is true, all of them and no other, in stored order, and
    leaves the database as it was. *)
Theorem active_is_exact (self : QuerySet DomainCheck.t) (db : Database) :
  (forall c, In c (active self db) <-> In c (self db) /\ DomainCheck.is_active c = true)
  /\ (forall c, In c (active objects db)
                <-> In c (domainchecks db) /\ DomainCheck.is_active c = true)
  /\ fst (fetch (active objects) db) = Ok (filter DomainCheck.is_active (domainchecks db))
  /\ snd (fetch (active self) db) = db
  /\ domainchecks (snd (fetch (active objects) db)) = domainchecks db
  /\ checkresults (snd (fetch (active objects) db)) = checkresults db.
Proof.
  split; [|split; [|split; [|split; [|split]]]]; try reflexivity.
  - intros c. unfold active. apply filter_In.
  - intros c. unfold active, objects. apply filter_In.
Qed.

(** ** Creating records *)

Lemma create_domaincheck_Ok b kw db c :
  fst (create_domaincheck b kw db) = Ok c ->
  c = DomainCheck.init (domaincheck_seq db) kw
  /\ (checks_columns b = true -> DomainCheck.columns_ok c = true)
  /\ domainchecks (snd (create_domaincheck b kw db)) = domainchecks db ++ [c]
  /\ checkresults (snd (create_domaincheck b kw db)) = checkresults db.
Proof.
  unfold create_domaincheck.
  destruct (checks_columns b) eqn:Eb;
    destruct (DomainCheck.columns_ok (DomainCheck.init (domaincheck_seq db) kw)) eqn:E;
    cbn [andb negb fst snd domainchecks checkresults]; intros H; try discriminate;
    injection H as <-; auto.
  repeat split. discriminate.
Qed.

Lemma create_domaincheck_raises b kw db :
  (forall c, fst (create_domaincheck b kw db) <> Ok c) ->
  snd (create_domaincheck b kw db) = db.
Proof.
  unfold create_domaincheck.
  destruct (checks_columns b && negb _); cbn [fst snd]; intros H; [reflexivity|].
  exfalso. exact (H _ eq_refl).
Qed.

Lemma create_checkresult_Ok b kw db r :
  fst (create_checkresult b kw db) = Ok r ->
  CheckResult.init (checkresult_seq db) kw = Some r
  /\ (checks_columns b = true ->
      CheckResult.positive_integer_ok (CheckResult.status_code r) = true)
  /\ domainchecks (snd (create_checkresult b kw db)) = domainchecks db
  /\ checkresults (snd (create_checkresult b kw db)) = checkresults db ++ [r].
Proof.
  unfold create_checkresult.
  destruct (CheckResult.integer_fits b (CheckResult.arg_status_code kw)); cbn [negb].
  2: { destruct b; discriminate. }
  destruct (CheckResult.init (checkresult_seq db) kw) as [r0|]; [|discriminate].
  destruct (checks_columns b) eqn:Eb; cbn [andb].
  - destruct (CheckResult.positive_integer_ok (CheckResult.status_code r0)) eqn:Ep;
      cbn [andb negb]; [|discriminate].
    destruct (existsb _ _); cbn [negb fst snd domainchecks checkresults];
      intros H; [|discriminate].
    injection H as <-. auto.
  - cbn [fst snd domainchecks checkresults]. intros H. injection H as <-.
    repeat split. discriminate.
Qed.

Lemma create_checkresult_raises b kw db :
  (forall r, fst (create_checkresult b kw db) <> Ok r) ->
  snd (create_checkresult b kw db) = db.
Proof.
  unfold create_checkresult.
  destruct (negb (CheckResult.integer_fits b (CheckResult.arg_status_code kw)));
    [reflexivity|].
  destruct (CheckResult.init (checkresult_seq db) kw) as [r0|]; [|reflexivity].
  destruct (checks_columns b && negb _); cbn [fst snd]; intros H; [reflexivity|].
  exfalso. exact (H _ eq_refl).
Qed.

Lemma columns_ok_declared_check c :
  DomainCheck.columns_ok c = true -> declared_check c.
Proof.
  unfold DomainCheck.columns_ok, declared_check. rewrite !andb_true_iff, !Nat.leb_le.
  unfold DomainCheck.domain_max_length, DomainCheck.path_max_length. tauto.
Qed.

Lemma positive_declared_result r :
  CheckResult.positive_integer_ok (CheckResult.status_code r) = true -> declared_result r.
Proof.
  unfold CheckResult.positive_integer_ok, declared_result.
  intros H code E. rewrite E in H. now apply Z.leb_le.
Qed.

(** On PostgreSQL the declared bounds hold in every database the
    constructors build. *)
Lemma reachable_declared db :
  reachable PostgreSQL db ->
  Forall declared_check (domainchecks db) /\ Forall declared_result (checkresults db).
Proof.
  induction 1 as [|db kw Hdb [IHc IHr]|db kw Hdb [IHc IHr]].
  - split; constructor.
  - destruct (fst (create_domaincheck PostgreSQL kw db)) as [c| | |] eqn:E.
    + destruct (create_domaincheck_Ok _ _ _ _ E) as (_ & Hok & -> & ->).
      split; [|exact IHr]. apply Forall_app. split; [exact IHc|].
      constructor; [apply columns_ok_declared_check, Hok; reflexivity | constructor].
    + rewrite create_domaincheck_raises; [now split | intros c; rewrite E; discriminate].
    + rewrite create_domaincheck_raises; [now split | intros c; rewrite E; discriminate].
    + rewrite create_domaincheck_raises; [now split | intros c; rewrite E; discriminate].
  - destruct (fst (create_checkresult PostgreSQL kw db)) as [r| | |] eqn:E.
    + destruct (create_checkresult_Ok _ _ _ _ E) as (_ & Hok & -> & ->).
      split; [exact IHc|]. apply Forall_app. split; [exact IHr|].
      constructor; [apply positive_declared_result, Hok; reflexivity | constructor].
    + rewrite create_checkresult_raises; [now split | intros r; rewrite E; discriminate].
    + rewrite create_checkresult_raises; [now split | intros r; rewrite E; discriminate].
    + rewrite create_checkresult_raises; [now split | intros r; rewrite E; discriminate].
Qed.

(** C8, as stated, fails: the source declares the bounds and tests none.
    On SQLite a domain of 254 characters and the status code -1 are stored
    as they are given. *)
Lemma stored_records_counterexample :
  reachable SQLite (Examples.undeclared SQLite)
  /\ (exists c, In c (domainchecks (Examples.undeclared SQLite))
                /\ characters (DomainCheck.domain c) = 254%nat)
  /\ (exists r, In r (checkresults (Examples.undeclared SQLite))
                /\ CheckResult.status_code r = Some (-1)).
Proof.
  split; [apply reach_checkresult, reach_domaincheck, reach_empty|].
  split; eexists; (split; [left; reflexivity | reflexivity]).
Qed.

(** C8, amended.  The declared bounds are the database's to enforce.  On
    PostgreSQL each stored check has a domain of at most 253 characters and
    a path of at most 1024, and each stored result a status code that is
    absent or not negative; SQLite stores what it is given.  On both, a
    result cannot be stored without [checked_on]; it is stored with the
    status code and response time given, which may both be absent, and with
    the empty string as its body when none is given. *)
Theorem stored_records_declared b db :
  reachable b db ->
  (b = PostgreSQL ->
   Forall declared_check (domainchecks db) /\ Forall declared_result (checkresults db))
  /\ (forall kw, CheckResult.arg_checked_on kw = None ->
        (forall r, fst (create_checkresult b kw db) <> Ok r)
        /\ snd (create_checkresult b kw db) = db
        /\ (CheckResult.integer_fits b (CheckResult.arg_status_code kw) = true ->
            fst (create_checkresult b kw db) = IntegrityError))
  /\ (forall kw r, fst (create_checkresult b kw db) = Ok r ->
        CheckResult.arg_checked_on kw = Some (CheckResult.checked_on r)
        /\ CheckResult.status_code r = CheckResult.arg_status_code kw
        /\ CheckResult.response_time r = CheckResult.arg_response_time kw
        /\ (CheckResult.arg_response_body kw = None -> CheckResult.response_body r = ""%string)
        /\ In r (checkresults (snd (create_checkresult b kw db))))
  /\ (forall c t, In c (domainchecks db) ->
        exists r, fst (create_checkresult b (failed_probe (DomainCheck.pk c) t) db) = Ok r
                  /\ CheckResult.checked_on r = t
                  /\ CheckResult.status_code r = None
                  /\ CheckResult.response_time r = None
                  /\ CheckResult.response_body r = ""%string).
Proof.
  intros Hdb. split; [|split; [|split]].
  - intros ->. now apply reachable_declared.
  - intros kw E.
    assert (Hno : forall r, fst (create_checkresult b kw db) <> Ok r).
    { intros r Hr. destruct (create_checkresult_Ok _ _ _ _ Hr) as (Hinit & _).
      unfold CheckResult.init in Hinit. rewrite E in Hinit.
      destruct (CheckResult.arg_domain_check kw); discriminate. }
    split; [exact Hno|]. split; [now apply create_checkresult_raises|].
    intros Hfit. unfold create_checkresult, CheckResult.init. rewrite Hfit, E.
    destruct (CheckResult.arg_domain_check kw); reflexivity.
  - intros kw r E. destruct (create_checkresult_Ok _ _ _ _ E) as (Hinit & _ & _ & Hrs).
    unfold CheckResult.init in Hinit.
    destruct (CheckResult.arg_domain_check kw) as [fk|]; [|discriminate].
    destruct (CheckResult.arg_checked_on kw) as [t0|]; [|discriminate].
    injection Hinit as <-. cbn. repeat split.
    + intros ->. reflexivity.
    + rewrite Hrs. apply in_or_app. right. now left.
  - intros c t Hin. unfold create_checkresult, failed_probe.
    cbn [CheckResult.init CheckResult.integer_fits negb
      CheckResult.arg_domain_check CheckResult.arg_checked_on CheckResult.arg_status_code
      CheckResult.arg_response_time CheckResult.arg_response_body DomainCheck.or_default
      CheckResult.positive_integer_ok CheckResult.status_code CheckResult.domain_check_id].
    assert (Hfk : existsb (fun c0 => DomainCheck.pk c0 =? DomainCheck.pk c) (domainchecks db)
                  = true).
    { apply existsb_exists. exists c. split; [exact Hin | apply Z.eqb_refl]. }
    rewrite Hfk. cbn [andb negb]. rewrite andb_false_r. cbn [fst].
    eexists. split; [reflexivity|]. repeat split.
Qed.

Lemma stored_records_declared_witness :
  Forall declared_check (domainchecks (Examples.built PostgreSQL))
  /\ Forall declared_result (checkresults (Examples.built PostgreSQL)).
Proof.
  assert (H : reachable PostgreSQL (Examples.built PostgreSQL))
    by (apply reach_checkresult, reach_domaincheck, reach_empty).
  destruct (stored_records_declared PostgreSQL (Examples.built PostgreSQL) H) as (Hd & _).
  exact (Hd eq_refl).
Defined.

(** C10. A check created with its domain and path only gets protocol
    [http], method [get] and [is_active] true, and is at once among the
    active checks; each of the three defaults applies whenever its own field
    is left out. *)
Theorem create_defaults b (d p : string) (db : Database) :
  (characters d <= 253)%nat ->
  (characters p <= 1024)%nat ->
  (exists c,
     fst (create_domaincheck b (only_domain_and_path d p) db) = Ok c
     /\ DomainCheck.domain c = d
     /\ DomainCheck.path c = p
     /\ DomainCheck.protocol c = "http"%string
     /\ DomainCheck.method c = "get"%string
     /\ DomainCheck.is_active c = true
     /\ In c (active objects (snd (create_domaincheck b (only_domain_and_path d p) db))))
  /\ (forall key kw,
        (DomainCheck.arg_protocol kw = None ->
         DomainCheck.protocol (DomainCheck.init key kw) = "http"%string)
        /\ (DomainCheck.arg_method kw = None ->
            DomainCheck.method (DomainCheck.init key kw) = "get"%string)
        /\ (DomainCheck.arg_is_active kw = None ->
            DomainCheck.is_active (DomainCheck.init key kw) = true)).
Proof.
  intros Hd Hp. split.
  - assert (Hok : DomainCheck.columns_ok
                    (DomainCheck.init (domaincheck_seq db) (only_domain_and_path d p)) = true).
    { unfold DomainCheck.columns_ok. cbn.
      apply Nat.leb_le in Hd, Hp.
      unfold DomainCheck.domain_max_length, DomainCheck.path_max_length.
      rewrite Hd, Hp. reflexivity. }
    unfold create_domaincheck. rewrite Hok. cbn [negb]. rewrite andb_false_r. cbn [fst snd].
    eexists. split; [reflexivity|]. repeat split.
    unfold active, objects. cbn [domainchecks]. apply filter_In. split; [|reflexivity].
    apply in_or_app. right. now left.
  - intros key kw. repeat split; intros E; unfold DomainCheck.init; cbn; rewrite E; reflexivity.
Qed.

Lemma create_defaults_witness :
  exists c,
    fst (create_domaincheck PostgreSQL (only_domain_and_path "example.com" "/health") empty_db)
    = Ok c
    /\ DomainCheck.protocol c = "http"%string
    /\ DomainCheck.method c = "get"%string
    /\ DomainCheck.is_active c = true
    /\ In c (active objects
               (snd (create_domaincheck PostgreSQL
                       (only_domain_and_path "example.com" "/health") empty_db))).
Proof.
  destruct (create_defaults PostgreSQL "example.com" "/health" empty_db) as [[c H] _].
  - simpl. lia.
  - simpl. lia.
  - exists c. tauto.
Defined.
(** ** More on the classification *)

Lemma classify_labels (rate : Q) :
  classify rate = "good"%string \/ classify rate = "fair"%string
  \/ classify rate = "poor"%string.
Proof.
  unfold classify.
  destruct (negb (Qle_bool rate (inject_Z 90))); [now left|].
  destruct (Qle_bool (inject_Z 75) rate && Qle_bool rate (inject_Z 90)); auto.
Qed.

Lemma unknown_iff_no_pings b now cutoff (self : QuerySet DomainCheck.t) db rows row :
  status b now cutoff self db = Ok rows ->
  In row rows ->
  StatusRow.status row = Some "unknown"%string <-> StatusRow.pings row = 0.
Proof.
  intros E Hin.
  destruct (status_row _ _ _ _ _ _ _ E Hin) as (_ & _ & _ & _ & H0 & H1).
  split.
  - intros Eu. destruct (Z.eq_dec (StatusRow.pings row) 0) as [|NZ]; [assumption|].
    destruct (H1 NZ) as [_ Hst]. rewrite Hst in Eu. injection Eu as Eu.
    destruct (classify_labels (exact_rate (StatusRow.successes row) (StatusRow.pings row)))
      as [H|[H|H]]; rewrite H in Eu; discriminate.
  - intros Z0. now apply H0.
Qed.

(** X1. The classification of a row is never NULL: it is one of good, fair,
    poor and unknown, and it is unknown exactly when [pings] is 0, that is
    exactly when the success rate is NULL. *)
Theorem status_is_a_label b now cutoff (self : QuerySet DomainCheck.t) db rows row :
  status b now cutoff self db = Ok rows ->
  In row rows ->
  (exists label, StatusRow.status row = Some label /\ In label labels)
  /\ (StatusRow.status row = Some "unknown"%string <-> StatusRow.pings row = 0)
  /\ (StatusRow.status row = Some "unknown"%string <-> StatusRow.success_rate row = None).
Proof.
  intros E Hin.
  destruct (status_row _ _ _ _ _ _ _ E Hin) as (_ & _ & _ & _ & H0 & H1).
  pose proof (unknown_iff_no_pings _ _ _ _ _ _ _ E Hin) as Hu.
  split; [|split; [exact Hu|]].
  - destruct (Z.eq_dec (StatusRow.pings row) 0) as [Z0|NZ].
    + exists "unknown"%string. split; [now apply H0 | simpl; tauto].
    + destruct (H1 NZ) as [_ Hst]. eexists. split; [exact Hst|].
      destruct (classify_labels (exact_rate (StatusRow.successes row) (StatusRow.pings row)))
        as [H|[H|H]]; rewrite H; simpl; tauto.
  - rewrite Hu. split.
    + intros Z0. now apply H0.
    + intros En. destruct (Z.eq_dec (StatusRow.pings row) 0) as [|NZ]; [assumption|].
      destruct (H1 NZ) as [Hr _]. rewrite Hr in En. discriminate.
Qed.

Lemma status_is_a_label_witness :
  (StatusRow.status Examples.long_ago_row = Some "unknown"%string
   <-> StatusRow.pings Examples.long_ago_row = 0)
  /\ exists label, StatusRow.status Examples.nine_of_ten_row = Some label /\ In label labels.
Proof.
  destruct (status_is_a_label SQLite Examples.noon None objects Examples.long_ago
              [Examples.long_ago_row] Examples.long_ago_row eq_refl (or_introl eq_refl))
    as (_ & H & _).
  destruct (status_is_a_label PostgreSQL Examples.noon None objects Examples.nine_of_ten
              [Examples.nine_of_ten_row] Examples.nine_of_ten_row eq_refl (or_introl eq_refl))
    as (H' & _).
  split; [exact H | exact H'].
Defined.

(** The thresholds on [s * 100 / p], as comparisons of integers. *)
Lemma rate_gt (s p k : Z) :
  0 < p -> (inject_Z k < inject_Z s * 100 / inject_Z p)%Q <-> k * p < 100 * s.
Proof.
  intros Hp.
  assert (Hp' : (0 < inject_Z p)%Q) by (change (inject_Z 0 < inject_Z p)%Q; rewrite <- Zlt_Qlt; exact Hp).
  split.
  - intros H. destruct (Z_lt_le_dec (k * p) (100 * s)) as [|Hge]; [assumption|].
    exfalso. apply (Qlt_not_le _ _ H).
    apply Qle_shift_div_r; [exact Hp'|].
    change (inject_Z s * inject_Z 100 <= inject_Z k * inject_Z p)%Q.
    rewrite <- !inject_Z_mult, <- Zle_Qle. lia.
  - intros H. apply Qlt_shift_div_l; [exact Hp'|].
    change (inject_Z k * inject_Z p < inject_Z s * inject_Z 100)%Q.
    rewrite <- !inject_Z_mult, <- Zlt_Qlt. lia.
Qed.

Lemma rate_ge (s p k : Z) :
  0 < p -> (inject_Z k <= inject_Z s * 100 / inject_Z p)%Q <-> k * p <= 100 * s.
Proof.
  intros Hp.
  assert (Hp' : (0 < inject_Z p)%Q) by (change (inject_Z 0 < inject_Z p)%Q; rewrite <- Zlt_Qlt; exact Hp).
  split.
  - intros H. destruct (Z_le_gt_dec (k * p) (100 * s)) as [|Hgt]; [assumption|].
    exfalso. apply (Qle_not_lt _ _ H).
    apply Qlt_shift_div_r; [exact Hp'|].
    change (inject_Z s * inject_Z 100 < inject_Z k * inject_Z p)%Q.
    rewrite <- !inject_Z_mult, <- Zlt_Qlt. lia.
  - intros H. apply Qle_shift_div_l; [exact Hp'|].
    change (inject_Z k * inject_Z p <= inject_Z s * inject_Z 100)%Q.
    rewrite <- !inject_Z_mult, <- Zle_Qle. lia.
Qed.

Lemma rate_le (s p k : Z) :
  0 < p -> (inject_Z s * 100 / inject_Z p <= inject_Z k)%Q <-> 100 * s <= k * p.
Proof.
  intros Hp. split.
  - intros H. destruct (Z_le_gt_dec (100 * s) (k * p)) as [|Hgt]; [assumption|].
    exfalso. apply (Qle_not_lt _ _ H). apply rate_gt; [exact Hp | lia].
  - intros H. apply Qnot_lt_le. intros Hlt. apply rate_gt in Hlt; [lia | exact Hp].
Qed.

Lemma rate_lt (s p k : Z) :
  0 < p -> (inject_Z s * 100 / inject_Z p < inject_Z k)%Q <-> 100 * s < k * p.
Proof.
  intros Hp. split.
  - intros H. destruct (Z_lt_le_dec (100 * s) (k * p)) as [|Hge]; [assumption|].
    exfalso. apply (Qlt_not_le _ _ H). apply rate_ge; [exact Hp | lia].
  - intros H. apply Qnot_le_lt. intros Hle. apply rate_ge in Hle; [lia | exact Hp].
Qed.

(** X2. With at least one ping, the classification is a comparison of the
    two counts: good when [100 * successes > 90 * pings], fair when
    [75 * pings <= 100 * successes <= 90 * pings], poor when
    [100 * successes < 75 * pings].  So a check whose pings all succeeded is
    good and one with no success is poor. *)
Theorem status_by_counts b now cutoff (self : QuerySet DomainCheck.t) db rows row :
  status b now cutoff self db = Ok rows ->
  In row rows ->
  0 < StatusRow.pings row ->
  let s := StatusRow.successes row in
  let p := StatusRow.pings row in
  (StatusRow.status row = Some "good"%string <-> 90 * p < 100 * s)
  /\ (StatusRow.status row = Some "fair"%string <-> 75 * p <= 100 * s <= 90 * p)
  /\ (StatusRow.status row = Some "poor"%string <-> 100 * s < 75 * p)
  /\ (s = p -> StatusRow.status row = Some "good"%string)
  /\ (s = 0 -> StatusRow.status row = Some "poor"%string).
Proof.
  intros E Hin Hpos s p.
  destruct (status_row _ _ _ _ _ _ _ E Hin) as (_ & _ & _ & _ & _ & H1).
  assert (NZ : StatusRow.pings row <> 0) by lia.
  destruct (H1 NZ) as [_ Hst]. fold s p in Hst. unfold exact_rate in Hst.
  assert (Hgood : StatusRow.status row = Some "good"%string <-> 90 * p < 100 * s).
  { rewrite Hst, <- rate_gt by exact Hpos. rewrite classify_good.
    split; [intros Eq; now injection Eq | intros Eq; now f_equal]. }
  assert (Hfair : StatusRow.status row = Some "fair"%string <-> 75 * p <= 100 * s <= 90 * p).
  { rewrite Hst, <- (rate_ge s p 75), <- (rate_le s p 90) by exact Hpos.
    rewrite classify_fair.
    split; [intros Eq; now injection Eq | intros Eq; now f_equal]. }
  assert (Hpoor : StatusRow.status row = Some "poor"%string <-> 100 * s < 75 * p).
  { rewrite Hst, <- rate_lt by exact Hpos. rewrite classify_poor.
    split; [intros Eq; now injection Eq | intros Eq; now f_equal]. }
  split; [exact Hgood|]. split; [exact Hfair|]. split; [exact Hpoor|]. split.
  - intros Eq. apply Hgood. unfold p in *. lia.
  - intros Eq. apply Hpoor. unfold p in *. lia.
Qed.

Lemma status_by_counts_witness :
  StatusRow.status Examples.nine_of_ten_row = Some "fair"%string
  <-> 75 * StatusRow.pings Examples.nine_of_ten_row
      <= 100 * StatusRow.successes Examples.nine_of_ten_row
      <= 90 * StatusRow.pings Examples.nine_of_ten_row.
Proof.
  destruct (status_by_counts SQLite Examples.noon None objects Examples.nine_of_ten
              [Examples.nine_of_ten_row] Examples.nine_of_ten_row eq_refl (or_introl eq_refl))
    as (_ & H & _).
  - reflexivity.
  - exact H.
Defined.

(** ** How the querysets relate *)

Lemma filter_map_swap {A B : Type} (f : A -> B) (q : B -> bool) (l : list A) :
  filter q (map f l) = map f (filter (fun a => q (f a)) l).
Proof.
  induction l as [|a l IH]; simpl; [reflexivity|].
  destruct (q (f a)); simpl; now rewrite IH.
Qed.

Lemma all_before_spec end_time db c :
  all_before end_time db c = true
  <-> forall r, In r (results_of db c) -> CheckResult.checked_on r < end_time.
Proof.
  unfold all_before. rewrite forallb_forall. split; intros H r Hr.
  - apply Z.ltb_lt. now apply H.
  - apply Z.ltb_lt. now apply H.
Qed.

(** The filter of [stale], read on the results of the check. *)
Lemma stale_filter_all_before end_time db c :
  holds (tri_or
           (Q_ [lt (Max (map checkresult__checked_on (checkresult db c))) end_time])
           (Q_ [isnull (Max (map checkresult__checked_on (checkresult db c))) true]))
  = all_before end_time db c.
Proof.
  apply eq_true_iff_eq. rewrite stale_filter, all_before_spec. split.
  - intros [Hn|[t [Ht Hlt]]].
    + apply last_check_None in Hn. rewrite Hn. intros r [].
    + apply last_check_Some in Ht. destruct Ht as [_ Hle].
      intros r Hr. specialize (Hle r Hr). lia.
  - intros H. destruct (Max (map checkresult__checked_on (checkresult db c))) as [t|] eqn:E.
    + right. exists t. split; [reflexivity|].
      apply last_check_Some in E. destruct E as [[r [Hr <-]] _]. now apply H.
    + now left.
Qed.

Lemma stale_checks now cutoff (self : QuerySet DomainCheck.t) db :
  map StaleRow.check (stale now cutoff self db)
  = filter (all_before (now - window cutoff) db) (self db).
Proof.
  unfold stale.
  change (DomainCheck.or_default cutoff default_cutoff) with (window cutoff).
  rewrite filter_map_swap, map_map. cbn [StaleRow.check StaleRow.last_check].
  rewrite map_id. apply filter_ext. intros c. apply stale_filter_all_before.
Qed.




(** X6. A longer cutoff never lowers a count and never adds a stale check:
    with [c1 <= c2], the row of a check under [c2] has at least the pings
    and successes of its row under [c1], and every row [stale] returns under
    [c2] it returns under [c1]. *)
Theorem longer_cutoff b now (c1 c2 : timedelta) (self : QuerySet DomainCheck.t) db :
  c1 <= c2 ->
  (forall rows1 rows2 row1 row2,
     status b now (Some c1) self db = Ok rows1 ->
     status b now (Some c2) self db = Ok rows2 ->
     In row1 rows1 ->
     In row2 rows2 ->
     StatusRow.check row1 = StatusRow.check row2 ->
     StatusRow.pings row1 <= StatusRow.pings row2
     /\ StatusRow.successes row1 <= StatusRow.successes row2)
  /\ (forall srow, In srow (stale now (Some c2) self db) ->
                   In srow (stale now (Some c1) self db)).
Proof.
  intros Hle. split.
  - intros rows1 rows2 row1 row2 E1 E2 H1 H2 E.
    destruct (status_row _ _ _ _ _ _ _ E1 H1) as (_ & Hp1 & Hs1 & _).
    destruct (status_row _ _ _ _ _ _ _ E2 H2) as (_ & Hp2 & Hs2 & _).
    rewrite Hp1, Hs1, Hp2, Hs2, E. cbn [window DomainCheck.or_default].
    assert (Hsince : forall r, since (now - c1) r = true -> since (now - c2) r = true).
    { intros r. unfold since. rewrite !Z.leb_le. lia. }
    split; apply count_le; intros r Hr; [now apply Hsince|].
    apply andb_true_iff in Hr. destruct Hr as [Hr Hok].
    apply andb_true_iff. split; [now apply Hsince | exact Hok].
  - intros srow H. apply stale_row in H. apply stale_row.
    destruct H as (Hc & Hl & Hold). split; [exact Hc|]. split; [exact Hl|].
    destruct Hold as [Hn|[t [Ht Hlt]]]; [now left|].
    right. exists t. split; [exact Ht|]. cbn [window DomainCheck.or_default] in *. lia.
Qed.

Lemma longer_cutoff_witness :
  In Examples.long_ago_stale (stale Examples.noon (Some (hours 1)) objects Examples.long_ago).
Proof.
  apply (longer_cutoff SQLite Examples.noon (hours 1) (hours 2) objects Examples.long_ago).
  - vm_compute. discriminate.
  - left. reflexivity.
Defined.

(** ** Recording a result *)

Lemma count_app_one {A : Type} (p : A -> bool) (l : list A) (a : A) :
  count p (l ++ [a]) = count p l + (if p a then 1 else 0).
Proof.
  unfold count. rewrite filter_app, length_app. cbn [filter].
  destruct (p a); cbn [List.length]; lia.
Qed.

Lemma results_of_create b kw db r c :
  fst (create_checkresult b kw db) = Ok r ->
  results_of (snd (create_checkresult b kw db)) c
  = results_of db c
    ++ (if CheckResult.domain_check_id r =? DomainCheck.pk c then [r] else []).
Proof.
  intros E. destruct (create_checkresult_Ok _ _ _ _ E) as (_ & _ & _ & Hrs).
  unfold results_of. rewrite Hrs, filter_app. reflexivity.
Qed.

(** A row depends on the database through the results of its check alone. *)
Lemma status_row_local b now cutoff (self self' : QuerySet DomainCheck.t)
      db db' rows rows' row row' :
  status b now cutoff self db = Ok rows ->
  status b now cutoff self' db' = Ok rows' ->
  In row rows ->
  In row' rows' ->
  StatusRow.check row' = StatusRow.check row ->
  results_of db' (StatusRow.check row) = results_of db (StatusRow.check row) ->
  row' = row.
Proof.
  intros E E' Hin Hin' Hc Hrs.
  unfold status in E, E'. apply collect_Ok in E, E'.
  destruct E as [E _], E' as [E' _].
  destruct (E row Hin) as [c [_ Hf]]. destruct (E' row' Hin') as [c' [_ Hf']].
  clear E E'. cbv beta zeta in Hf, Hf'.
  assert (Ec : StatusRow.check row = c).
  { match type of Hf with bind ?d _ = _ => destruct d as [rate| | |] end;
      cbn [bind] in Hf; try discriminate.
    injection Hf as <-. reflexivity. }
  assert (Ec' : StatusRow.check row' = c').
  { match type of Hf' with bind ?d _ = _ => destruct d as [rate| | |] end;
      cbn [bind] in Hf'; try discriminate.
    injection Hf' as <-. reflexivity. }
  subst c c'. rewrite Hc in Hf'.
  unfold checkresult in Hf, Hf'.
  fold (results_of db (StatusRow.check row)) in Hf.
  fold (results_of db' (StatusRow.check row)) in Hf'.
  rewrite Hrs in Hf'. rewrite Hf in Hf'. now injection Hf'.
Qed.

(** X7. Recording a result changes the row of its own check only.  The rows
    of the other checks are as before; the row of its check gains one ping
    when the result falls in the window, and one success when its status
    code is a success too; its [last_check] is set, and no earlier than the
    result; and with the result in the window the check is not stale. *)
Theorem record_result b now cutoff kw db r :
  fst (create_checkresult b kw db) = Ok r ->
  let db' := snd (create_checkresult b kw db) in
  let start := now - window cutoff in
  (forall rows rows' row row',
     status b now cutoff objects db = Ok rows ->
     status b now cutoff objects db' = Ok rows' ->
     In row rows ->
     In row' rows' ->
     StatusRow.check row' = StatusRow.check row ->
     (CheckResult.domain_check_id r <> DomainCheck.pk (StatusRow.check row) -> row' = row)
     /\ (CheckResult.domain_check_id r = DomainCheck.pk (StatusRow.check row) ->
         StatusRow.pings row' = StatusRow.pings row + (if since start r then 1 else 0)
         /\ StatusRow.successes row'
            = StatusRow.successes row + (if since start r && succeeded r then 1 else 0)
         /\ exists m, StatusRow.last_check row' = Some m /\ CheckResult.checked_on r <= m))
  /\ (forall srow,
        In srow (stale now cutoff objects db') ->
        CheckResult.domain_check_id r = DomainCheck.pk (StaleRow.check srow) ->
        CheckResult.checked_on r < start).
Proof.
  intros E db' start. split.
  - intros rows rows' row row' Erows Erows' Hin Hin' Hc. split.
    + intros Hfk. apply (status_row_local _ _ _ _ _ _ _ _ _ _ _ Erows Erows' Hin Hin' Hc).
      unfold db'. rewrite (results_of_create _ _ _ _ _ E).
      apply Z.eqb_neq in Hfk. rewrite Hfk. apply app_nil_r.
    + intros Hfk.
      destruct (status_row _ _ _ _ _ _ _ Erows Hin) as (_ & Hp & Hs & _).
      destruct (status_row _ _ _ _ _ _ _ Erows' Hin') as (_ & Hp' & Hs' & Hl' & _).
      assert (Hrs : results_of db' (StatusRow.check row')
                    = results_of db (StatusRow.check row) ++ [r]).
      { rewrite Hc. unfold db'. rewrite (results_of_create _ _ _ _ _ E).
        apply Z.eqb_eq in Hfk. now rewrite Hfk. }
      rewrite Hrs in Hp', Hs'.
      rewrite count_app_one in Hp', Hs'. fold start in Hp', Hs'.
      split; [rewrite Hp', Hp; reflexivity|].
      split; [rewrite Hs', Hs; reflexivity|].
      rewrite Hl'.
      destruct (Max (map checkresult__checked_on (checkresult db' (StatusRow.check row'))))
        as [m|] eqn:EM.
      * exists m. split; [reflexivity|].
        apply last_check_Some in EM. destruct EM as [_ Hle]. apply Hle.
        rewrite Hrs. apply in_or_app. right. now left.
      * apply last_check_None in EM. rewrite Hrs in EM.
        destruct (results_of db (StatusRow.check row)); discriminate.
  - intros srow Hin Hfk.
    assert (H : In (StaleRow.check srow) (map StaleRow.check (stale now cutoff objects db')))
      by (apply in_map; exact Hin).
    rewrite stale_checks in H. apply filter_In in H. destruct H as [_ H].
    rewrite all_before_spec in H. apply H.
    unfold db'. rewrite (results_of_create _ _ _ _ _ E).
    apply Z.eqb_eq in Hfk. rewrite Hfk. apply in_or_app. right. now left.
Qed.

Lemma record_result_witness :
  exists row row',
    status SQLite Examples.noon None objects
      (snd (create_domaincheck SQLite (only_domain_and_path "example.com" "/health") empty_db))
    = Ok [row]
    /\ status SQLite Examples.noon None objects (Examples.built SQLite) = Ok [row']
    /\ StatusRow.pings row = 0
    /\ StatusRow.pings row' = StatusRow.pings row + 1.
Proof.
  destruct (record_result SQLite Examples.noon None (failed_probe 1 Examples.noon)
              (snd (create_domaincheck SQLite (only_domain_and_path "example.com" "/health")
                      empty_db))
              _ eq_refl) as [H _].
  eexists. eexists.
  split; [reflexivity|]. split; [reflexivity|]. split; [reflexivity|].
  destruct (H _ _ _ _ eq_refl eq_refl (or_introl eq_refl) (or_introl eq_refl) eq_refl)
    as [_ H2].
  destruct (H2 eq_refl) as [Hp _]. exact Hp.
Defined.

(** ** Printing a check *)

Lemma display_other (value : string) :
  value <> DomainCheck.METHOD_GET -> value <> DomainCheck.METHOD_POST ->
  DomainCheck.display DomainCheck.METHOD_CHOICES value = value.
Proof.
  intros Hg Hp. unfold DomainCheck.METHOD_CHOICES. cbn [DomainCheck.display].
  destruct (String.eqb DomainCheck.METHOD_GET value) eqn:Eg.
  - apply String.eqb_eq in Eg. congruence.
  - destruct (String.eqb DomainCheck.METHOD_POST value) eqn:Ep; [|reflexivity].
    apply String.eqb_eq in Ep. congruence.
Qed.

(** X10. A check prints as the label of its method, a space, and its URL.
    The label is [GET] for [get] and [POST] for [post]; a method the choices
    do not list is printed as stored.  Printing never fails. *)
Theorem str_is_label_and_url (c : DomainCheck.t) :
  DomainCheck.__str__ c
  = Some (DomainCheck.get_method_display c ++ " " ++ DomainCheck.protocol c ++ "://"
            ++ DomainCheck.domain c ++ DomainCheck.path c)%string
  /\ (DomainCheck.method c = "get"%string -> DomainCheck.get_method_display c = "GET"%string)
  /\ (DomainCheck.method c = "post"%string -> DomainCheck.get_method_display c = "POST"%string)
  /\ (DomainCheck.method c <> "get"%string -> DomainCheck.method c <> "post"%string ->
      DomainCheck.get_method_display c = DomainCheck.method c).
Proof.
  split; [|split; [|split]].
  - unfold DomainCheck.__str__.
    assert (E : DomainCheck.url c
      = Some (DomainCheck.protocol c ++ "://" ++ DomainCheck.domain c ++ DomainCheck.path c)%string).
    { unfold DomainCheck.url, Format.format. cbn. now rewrite append_empty. }
    rewrite E. unfold Format.format. cbn. now rewrite append_empty.
  - intros E. unfold DomainCheck.get_method_display. rewrite E. reflexivity.
  - intros E. unfold DomainCheck.get_method_display. rewrite E. reflexivity.
  - intros Hg Hp. apply display_other; assumption.
Qed.
